(** * Census-tract choropleth scripts: a shallow embedding

    The two scripts [process_opportunity.py] and [process_race_demo.py]
    are glue around pandas: a delimited-file reader, a positional column
    extractor, a row-wise argmax, a left join and a colour lookup.  Each
    source function is embedded below under its own name.  The pandas
    operations they call are embedded in [Module Pandas], restricted to
    the behaviour the scripts exercise; every restriction is written at
    the definition it concerns. *)

From Stdlib Require Import ZArith Lia Ascii String.
From stdpp Require Import base option strings list gmap pretty sorting.

Open Scope Z_scope.

(** * Exceptions raised by the scripts *)

Inductive exn : Type :=
  | UnicodeDecodeError
  | ValueError (msg : string)
  | KeyError (key : string)
  | IndexError
  | TypeError (msg : string)
  | OtherError (what : string).

Global Instance exn_eq_dec : EqDecision exn.
Proof. solve_decision. Defined.

(** A computation that either raises or returns. *)
Definition result (A : Type) : Type := exn + A.

Definition ok {A} (a : A) : result A := inr a.
Definition raise {A} (e : exn) : result A := inl e.

Global Instance result_ret : MRet result := λ A a, inr a.

Global Instance result_bind : MBind result := λ A B k m,
  match m with
  | inl e => inl e
  | inr a => k a
  end.

Global Arguments result_bind {_ _} _ !_ /.

(** * The pandas layer *)

Module Pandas.

(** ** Cells

    A cell of an [object] or [int64] column.  [VStr] is a Python [str]
    (text decoded from a single-byte encoding, so one [ascii] per
    character), [VInt] an integer, [VNaN] the missing value.  A
    [float64] cell holding an integral value is identified with the
    [VInt] of that value: Python compares and hashes [1.0] and [1]
    alike, which is all the scripts do with such cells. *)
Inductive cell : Type :=
  | VStr (s : string)
  | VInt (z : Z)
  | VNaN.

Global Instance cell_eq_dec : EqDecision cell.
Proof. solve_decision. Defined.

Global Instance cell_inhabited : Inhabited cell := populate VNaN.

Definition is_str (c : cell) : bool :=
  match c with VStr _ => true | _ => false end.

(** [Series.astype(str)]: [str] applied to every element.  Text is left
    as it is, an integer is printed in decimal without padding, the
    missing value becomes the text [nan]. *)
Definition astype_str (c : cell) : cell :=
  match c with
  | VStr s => VStr s
  | VInt z => VStr (pretty z)
  | VNaN => VStr "nan"
  end.

(** [Series.fillna(v)] *)
Definition fillna (v : string) (c : cell) : cell :=
  match c with
  | VNaN => VStr v
  | _ => c
  end.

(** ** Integer literals *)

Definition digit (a : ascii) : option Z :=
  Z.of_nat <$> Ascii.is_nat a.

Fixpoint parse_digits (acc : Z) (s : string) : option Z :=
  match s with
  | EmptyString => Some acc
  | String a s' =>
      match digit a with
      | Some d => parse_digits (10 * acc + d) s'
      | None => None
      end
  end.

(** An optional sign followed by at least one decimal digit; leading
    zeros are accepted and carry no value. *)
Definition parse_int (s : string) : option Z :=
  match s with
  | EmptyString => None
  | String "-" (String a r) => Z.opp <$> parse_digits 0 (String a r)
  | String "+" (String a r) => parse_digits 0 (String a r)
  | _ => parse_digits 0 s
  end.

(** ** Whitespace

    [str.strip()] removes the characters for which [str.isspace] holds.
    Among the 256 code points of a single-byte encoding these are
    9-13, 28-32, 133 and 160. *)
Definition isspace (a : ascii) : bool :=
  let n := N_of_ascii a in
  ((9 <=? n) && (n <=? 13) || (28 <=? n) && (n <=? 32)
   || (n =? 133) || (n =? 160))%N.

Fixpoint lstrip (s : string) : string :=
  match s with
  | EmptyString => EmptyString
  | String a s' => if isspace a then lstrip s' else s
  end.

Definition strip (s : string) : string :=
  String.rev (lstrip (String.rev (lstrip s))).

(** [Series.astype(str).str.strip()] on one element. *)
Definition astype_str_strip (c : cell) : cell :=
  match astype_str c with
  | VStr s => VStr (strip s)
  | c' => c'
  end.

(** ** Integer columns

    An [int64] column wraps around on overflow.  When a numeric column
    holds a missing value pandas stores it as [float64] instead; the two
    agree on every integer of magnitude at most [2^53], which is the
    domain on which the arithmetic below is read as the float one too. *)
Definition wrap_int64 (z : Z) : Z :=
  (z + 2 ^ 63) mod 2 ^ 64 - 2 ^ 63.

(** Element-wise [a - b] of two numeric columns: the missing value
    propagates. *)
Definition num_sub (a b : option Z) : option Z :=
  match a, b with
  | Some x, Some y => Some (wrap_int64 (x - y))
  | _, _ => None
  end.

(** [pd.to_numeric(col, errors='coerce')] on one element: a value that
    is not numeric becomes the missing value instead of raising.  The
    embedding reads integer literals; decimal points and exponents, which
    pandas also accepts, do not occur in the count columns of a PL file
    and are outside it. *)
Definition to_numeric (c : cell) : option Z :=
  match c with
  | VStr s => parse_int s
  | VInt z => Some z
  | VNaN => None
  end.

(** ** [DataFrame.idxmax(axis=1)]

    The label of the first column holding the row's maximum, missing
    values skipped; the missing value when the whole row is missing
    (pandas 2 warns there and returns NaN).  [argmax_from] replaces the
    running best only on a strictly greater value, so among equal maxima
    the earliest column stays. *)
Fixpoint argmax_from (best : string) (bv : Z)
    (l : list (string * option Z)) : string :=
  match l with
  | [] => best
  | (_, None) :: l' => argmax_from best bv l'
  | (c, Some v) :: l' =>
      if bv <? v then argmax_from c v l' else argmax_from best bv l'
  end.

Fixpoint idxmax (l : list (string * option Z)) : option string :=
  match l with
  | [] => None
  | (_, None) :: l' => idxmax l'
  | (c, Some v) :: l' => Some (argmax_from c v l')
  end.

(** ** Frames *)

Abbreviation row := (list cell).

Record frame : Type := Frame {
  columns : list string;
  rows : list row
}.

(** Position of a column label (the first one carrying it). *)
Definition column_index (name : string) (cols : list string) : option nat :=
  fst <$> list_find (λ c, c = name) cols.

(** The cell of a row at a column position; rows of a frame are as wide
    as its header, a shorter one reads as missing. *)
Definition at_col (i : nat) (r : row) : cell := default VNaN (r !! i).

(** [df[name]] *)
Definition getitem (name : string) (df : frame) : result (list cell) :=
  match column_index name (columns df) with
  | Some i => ok (at_col i <$> rows df)
  | None => raise (KeyError name)
  end.

(** [df[name] = col]: overwrites the column when the label exists, adds
    it as the last column otherwise.  Row [k] receives element [k]. *)
Definition setitem (name : string) (col : list cell) (df : frame) : frame :=
  match column_index name (columns df) with
  | Some i =>
      Frame (columns df)
            (imap (λ k r, <[i := default VNaN (col !! k)]> r) (rows df))
  | None =>
      Frame (columns df ++ [name])
            (imap (λ k r, r ++ [default VNaN (col !! k)]) (rows df))
  end.

(** [df.iloc[:, k]] *)
Definition iloc (k : nat) (df : frame) : result (list cell) :=
  if decide (k < length (columns df))%nat
  then ok (at_col k <$> rows df)
  else raise IndexError.

(** [df[df[name] == v]]: the rows whose cell equals the text [v]. *)
Definition filter_eq (name : string) (v : string) (df : frame) : result frame :=
  match column_index name (columns df) with
  | Some i => ok (Frame (columns df)
                        (filter (λ r, at_col i r = VStr v) (rows df)))
  | None => raise (KeyError name)
  end.

(** ** Reading delimited text

    A file already split into lines and fields; the first line is the
    header. *)
Abbreviation table := (list (list string)).

(** The tokens read as the missing value. *)
Definition na_values : list string :=
  [ ""; "#N/A"; "#N/A N/A"; "#NA"; "-1.#IND"; "-1.#QNAN"; "-NaN"; "-nan";
    "1.#IND"; "1.#QNAN"; "<NA>"; "N/A"; "NA"; "NULL"; "NaN"; "None";
    "n/a"; "nan"; "null" ].

Definition text_cell (f : string) : cell :=
  if decide (f ∈ na_values) then VNaN else VStr f.

Definition field (k : nat) (line : list string) : string :=
  default "" (line !! k).

Definition positions (header : list string) : list nat :=
  seq 0 (length header).

(** [pd.read_csv(path, dtype=str)]: every field is kept as text. *)
Definition read_csv_str (t : table) : result frame :=
  match t with
  | [] => raise (OtherError "EmptyDataError")
  | header :: lines =>
      ok (Frame header
            ((λ line, (λ k, text_cell (field k line)) <$> positions header)
               <$> lines))
  end.

(** [pd.read_csv(path)]: the type of each column is inferred.  A column
    all of whose fields are integer literals becomes an integer column;
    any other column is kept here as text.  (Float and boolean inference
    is outside the embedding.) *)
Definition int_column (k : nat) (lines : list (list string)) : bool :=
  forallb (λ line, bool_decide (is_Some (parse_int (field k line)))) lines.

Definition infer_cell (as_int : bool) (f : string) : cell :=
  if as_int
  then match parse_int f with Some z => VInt z | None => VNaN end
  else text_cell f.

Definition read_csv (t : table) : result frame :=
  match t with
  | [] => raise (OtherError "EmptyDataError")
  | header :: lines =>
      ok (Frame header
            ((λ line,
                (λ k, infer_cell (int_column k lines) (field k line))
                  <$> positions header)
               <$> lines))
  end.

(** ** Left outer join

    [left.merge(right, how='left')] on one key: the left rows in their
    order, each paired with every right row of equal key in the right
    order, or once with no right row when there is none.  Keys are
    compared as cells, a missing key matching a missing key as pandas
    has it; wherever the scripts merge, both key columns hold text. *)
Definition matches {B} (rkey : B → cell) (k : cell) (R : list B) : list B :=
  filter (λ r, rkey r = k) R.

Definition join_row {A B} (rkey : B → cell) (R : list B) (k : cell) (l : A)
    : list (A * option B) :=
  match matches rkey k R with
  | [] => [(l, None)]
  | ms => (λ r, (l, Some r)) <$> ms
  end.

Definition left_join {A B} (lkey : A → cell) (rkey : B → cell)
    (L : list A) (R : list B) : list (A * option B) :=
  flat_map (λ l, join_row rkey R (lkey l) l) L.

(** The frame a merge returns: the columns of both sides and the joined
    rows. *)
Record merged : Type := Merged {
  left_columns : list string;
  right_columns : list string;
  pairs : list (row * option row)
}.

(** [left.merge(right, left_on=lk, right_on=rk, how='left')] *)
Definition merge_left (lk rk : string) (L R : frame) : result merged :=
  match column_index rk (columns R), column_index lk (columns L) with
  | None, _ => raise (KeyError rk)
  | _, None => raise (KeyError lk)
  | Some j, Some i =>
      ok (Merged (columns L) (columns R)
                 (left_join (at_col i) (at_col j) (rows L) (rows R)))
  end.

(** The right-hand cell of a joined row: missing when nothing matched. *)
Definition right_cell (j : nat) (p : row * option row) : cell :=
  match p.2 with
  | Some r => at_col j r
  | None => VNaN
  end.

(** [m[name]] on a merge result.  A label carried by both sides was
    renamed with the suffixes [_x] and [_y], so it is no longer there. *)
Definition merged_getitem (name : string) (m : merged) : result (list cell) :=
  match column_index name (left_columns m),
        column_index name (right_columns m) with
  | Some i, None => ok ((λ p, at_col i p.1) <$> pairs m)
  | None, Some j => ok (right_cell j <$> pairs m)
  | _, _ => raise (KeyError name)
  end.

End Pandas.

Import Pandas.

(** * Python dictionaries

    A [dict] keeps its keys in insertion order, which the legends below
    iterate over: an association list with lookup by key. *)

Abbreviation dict K V := (list (K * V)).

Definition dict_get {K V} `{EqDecision K} (k : K) (d : dict K V) : option V :=
  (λ hit, hit.2.2) <$> list_find (λ kv : K * V, kv.1 = k) d.

Definition dict_keys {K V} (d : dict K V) : list K := (λ kv : K * V, kv.1) <$> d.

(** [[f(x) for x in xs]] when [f] may raise: the first exception ends the
    comprehension. *)
Fixpoint traverse {A B} (f : A → result B) (xs : list A) : result (list B) :=
  match xs with
  | [] => ok []
  | x :: xs' =>
      match f x with
      | inl e => inl e
      | inr y =>
          match traverse f xs' with
          | inl e => inl e
          | inr ys => ok (y :: ys)
          end
      end
  end.

(** * What a renderer produces

    One fill colour per drawn row, in row order, and the legend handles:
    a [Patch] is a face colour with a label. *)

Record patch : Type := Patch { facecolor : string; label : string }.

Global Instance patch_eq_dec : EqDecision patch.
Proof. solve_decision. Defined.

Record figure : Type := Figure {
  fills : list string;
  legend : list patch;
  legend_title : string;
  title : string;
  saved_to : string
}.

(** * The store of frames

    [merge_geo_roi] assigns into the frames it is handed, so frames live
    in a store and are passed by reference. *)

Definition loc : Type := nat.
Abbreviation store := (gmap loc frame).

(** A statement sequence over the store that may raise; what was written
    before the exception stays written. *)
Definition M (A : Type) : Type := store → result A * store.

Definition bind_M {A B} (m : M A) (k : A → M B) : M B := λ σ,
  match m σ with
  | (inl e, σ') => (inl e, σ')
  | (inr a, σ') => k a σ'
  end.

Definition lift {A} (r : result A) : M A := λ σ, (r, σ).

(** Dereference; a reference always denotes an object in Python, the
    error case only makes the function total. *)
Definition load (l : loc) : M frame := λ σ,
  match σ !! l with
  | Some df => (ok df, σ)
  | None => (raise (OtherError "dangling reference"), σ)
  end.

Definition put (l : loc) (df : frame) : M unit := λ σ, (ok (), <[l := df]> σ).

(** [obj[name] = obj[name].astype(str)] on the object behind [l]. *)
Definition assign_astype_str (name : string) (l : loc) : M unit :=
  bind_M (load l) (λ df,
  bind_M (lift (getitem name df)) (λ col,
  put l (setitem name (astype_str <$> col) df))).

(** * process_opportunity.py *)

Module Opportunity.

Section Script.

(** The tract provider ([pygris.tracts(state=..., year=2020)]) and the
    files on disk, already split into fields. *)
Variable tracts : string → Z → result frame.
Variable files : gmap string table.

Definition open_csv (path : string) : result table :=
  match files !! path with
  | Some t => ok t
  | None => raise (OtherError "FileNotFoundError")
  end.

Definition get_tracts (state : string) : result frame :=
  tracts_gdf ← tracts state 2020;
  geoid ← getitem "GEOID" tracts_gdf;
  ok (setitem "GEOID" (astype_str <$> geoid) tracts_gdf).

Definition color_scheme : dict Z string :=
  [ (1, "#2ecc71"); (2, "#f1c40f"); (3, "#e74c3c") ].

Definition legend_labels : dict Z string :=
  [ (1, "High Opportunity Area");
    (2, "Medium Opportunity Area");
    (3, "Low Opportunity Area") ].

(** The key a cell is looked up under in a dictionary keyed by
    integers: text and the missing value equal no integer key. *)
Definition int_key (c : cell) : option Z :=
  match c with
  | VInt z => Some z
  | _ => None
  end.

(** [color_scheme.get(rank, '#FFFFFF')] *)
Definition fill_of (rank : cell) : string :=
  default "#FFFFFF" (int_key rank ≫= λ z, dict_get z color_scheme).

(** [d[key]] for an integer key. *)
Definition lookup_int (d : dict Z string) (key : Z) : result string :=
  match dict_get key d with
  | Some v => ok v
  | None => raise (KeyError (pretty key))
  end.

Definition legend_elements : result (list patch) :=
  traverse
    (λ key, c ← lookup_int color_scheme key;
            l ← lookup_int legend_labels key;
            ok (Patch c l))
    (merge_sort Z.le (dict_keys color_scheme)).

Definition create_opportunity_map (df : merged) (city_name output_path : string)
    : result figure :=
  ranks ← merged_getitem "COMP_RANK" df;
  handles ← legend_elements;
  ok (Figure (fill_of <$> ranks) handles "Opportunity Rankings"
        ("Opportunity Rankings by Census Tract - " +:+ city_name +:+ " (2020)")
        output_path).

Definition merge_geo_roi (roi geo : loc) : M merged :=
  bind_M (assign_astype_str "FIPS" roi) (λ _,
  bind_M (assign_astype_str "GEOID" geo) (λ _,
  bind_M (load geo) (λ g,
  bind_M (load roi) (λ r,
  lift (merge_left "GEOID" "FIPS" g r))))).

(** Lines 106-113 of [process_opportunity_data], which are also lines
    120-123 of the script body: download, filter to the county, read the
    ROI file with inferred column types, merge.  The two frames are
    fresh objects, at [0] (ROI) and [1] (county tracts). *)
Definition load_and_merge (state county_fips roi_path : string) : result merged :=
  tracts_gdf ← get_tracts state;
  county_tracts ← filter_eq "COUNTYFP" county_fips tracts_gdf;
  roi_data ← (open_csv roi_path ≫= read_csv);
  (merge_geo_roi 0%nat 1%nat {[ 0%nat := roi_data; 1%nat := county_tracts ]}).1.


(** The statements at the end of the file (lines 120-124): the Detroit
    map. *)
Definition script : result figure :=
  merged_detroit ← load_and_merge "26" "163" "data/roi/detroit_roi.csv";
  create_opportunity_map merged_detroit "Detroit"
    "output/detroit_opportunity.png".

End Script.

End Opportunity.

(** * process_race_demo.py *)

Module RaceDemo.

Definition encodings : list string := [ "latin1"; "iso-8859-1"; "cp1252" ].

(** One row of the frame [read_pl_data] returns. *)
Record demographic : Type := Demographic {
  total_pop : option Z;
  white_alone : option Z;
  black_alone : option Z;
  aian_alone : option Z;
  asian_alone : option Z;
  nhpi_alone : option Z;
  other_alone : option Z;
  hispanic : option Z;
  GEOID : cell;
  County : cell;
  BeforeCounty : cell;
  AfterCounty : cell;
  white_nh : option Z;
  dominant_race : cell
}.

(** [race_cols], each label with the column it names. *)
Definition race_cols (white_nh black aian asian nhpi other hisp : option Z)
    : list (string * option Z) :=
  [ ("white_nh", white_nh); ("black_alone", black); ("aian_alone", aian);
    ("asian_alone", asian); ("nhpi_alone", nhpi); ("other_alone", other);
    ("hispanic", hisp) ].

Definition label_cell (o : option string) : cell :=
  match o with
  | Some s => VStr s
  | None => VNaN
  end.

(** Element [i] of a column assigned into a frame: aligned on the row
    number, missing past the end of the column. *)
Definition aligned (col : list cell) (i : nat) : cell :=
  default VNaN (col !! i).

(** Row [i] of the result, from the columns picked out of the two
    files (lines 89-112). *)
Definition build_row
    (p6 p7 p8 p9 p10 p11 p12 p73 g9 g14 g88 g90 : list cell) (i : nat)
    : demographic :=
  let white := to_numeric (aligned p7 i) in
  let black := to_numeric (aligned p8 i) in
  let aian := to_numeric (aligned p9 i) in
  let asian := to_numeric (aligned p10 i) in
  let nhpi := to_numeric (aligned p11 i) in
  let other := to_numeric (aligned p12 i) in
  let hisp := to_numeric (aligned p73 i) in
  let wnh := num_sub white hisp in
  {| total_pop := to_numeric (aligned p6 i);
     white_alone := white;
     black_alone := black;
     aian_alone := aian;
     asian_alone := asian;
     nhpi_alone := nhpi;
     other_alone := other;
     hispanic := hisp;
     GEOID := aligned g9 i;
     County := aligned (astype_str_strip <$> g14) i;
     BeforeCounty := aligned g88 i;
     AfterCounty := aligned g90 i;
     white_nh := wnh;
     dominant_race :=
       label_cell (idxmax (race_cols wnh black aian asian nhpi other hisp)) |}.

(** The body of [read_pl_data] once both files are read.  The frame is
    built from the Part 1 columns, so it has one row per Part 1 row. *)
Definition extract (geo_df part1_df : frame) : result (list demographic) :=
  p6 ← iloc 6 part1_df;
  p7 ← iloc 7 part1_df;
  p8 ← iloc 8 part1_df;
  p9 ← iloc 9 part1_df;
  p10 ← iloc 10 part1_df;
  p11 ← iloc 11 part1_df;
  p12 ← iloc 12 part1_df;
  p73 ← iloc 73 part1_df;
  g9 ← iloc 9 geo_df;
  g14 ← iloc 14 geo_df;
  g88 ← iloc 88 geo_df;
  g90 ← iloc 90 geo_df;
  ok (build_row p6 p7 p8 p9 p10 p11 p12 p73 g9 g14 g88 g90
        <$> seq 0 (length (rows part1_df))).

Section Reader.

(** [pd.read_csv(file_path, delimiter='|', dtype=str, encoding=...,
    low_memory=False)]: what one attempt on a path under an encoding
    gives. *)
Variable read_csv_as : string → string → result frame.

(** The [for encoding in encodings] loop with its [try]: only
    [UnicodeDecodeError] is caught. *)
Fixpoint try_encodings (file_path : string) (encs : list string)
    : result frame :=
  match encs with
  | [] =>
      raise (ValueError ("Could not read file " +:+ file_path
                         +:+ " with any supported encoding"))
  | encoding :: rest =>
      match read_csv_as file_path encoding with
      | inl UnicodeDecodeError => try_encodings file_path rest
      | other => other
      end
  end.

Definition read_pl_file (file_path : string) : result frame :=
  try_encodings file_path encodings.

Definition read_pl_data (geo_file_path part1_file_path : string)
    : result (list demographic) :=
  geo_df ← read_pl_file geo_file_path;
  part1_df ← read_pl_file part1_file_path;
  extract geo_df part1_df.

End Reader.

Definition color_scheme : dict string string :=
  [ ("white_nh", "#FFB6C1"); ("black_alone", "#87CEEB");
    ("asian_alone", "#98FB98"); ("hispanic", "#DDA0DD");
    ("aian_alone", "#F0E68C"); ("nhpi_alone", "#FFA07A");
    ("other_alone", "#D3D3D3"); ("Unknown", "#FFFFFF") ].

Definition legend_labels : dict string string :=
  [ ("white_nh", "White (Non-Hispanic)");
    ("black_alone", "Black/African American");
    ("asian_alone", "Asian");
    ("hispanic", "Hispanic/Latino");
    ("aian_alone", "American Indian/Alaska Native");
    ("nhpi_alone", "Native Hawaiian/Pacific Islander");
    ("other_alone", "Other Race");
    ("Unknown", "Unknown") ].

(** [d[key]] for a text key. *)
Definition lookup_str (d : dict string string) (key : string) : result string :=
  match dict_get key d with
  | Some v => ok v
  | None => raise (KeyError key)
  end.

(** [color_scheme[race]] for a cell of the category column: a cell that
    is not text equals no key. *)
Definition color_of (race : cell) : result string :=
  match race with
  | VStr s => lookup_str color_scheme s
  | VInt z => raise (KeyError (pretty z))
  | VNaN => raise (KeyError "nan")
  end.

(** A row of [merged_gdf]: the tract, the demographic row joined to it
    if any, and the category column after [fillna('Unknown')]. *)
Record merged_row : Type := MergedRow {
  tract : row;
  joined : option demographic;
  category : cell
}.

Definition merged_category (o : option demographic) : cell :=
  fillna "Unknown"
    match o with
    | Some d => dominant_race d
    | None => VNaN
    end.

Definition legend_elements : result (list patch) :=
  traverse
    (λ key, c ← lookup_str color_scheme key;
            l ← lookup_str legend_labels key;
            ok (Patch c l))
    (dict_keys color_scheme).

Record rendered : Type := Rendered {
  drawn : figure;
  unmatched_csv : option (list (cell * cell));
  merged_gdf : list merged_row
}.

(** The merge is on the one shared label GEOID.  A tract frame that
    itself carried a [dominant_race] column would have it renamed by the
    merge, and [merged_gdf['dominant_race']] would find nothing. *)
Definition create_racial_map (gdf : frame) (demographics : list demographic)
    (output_path county_name : string) : result rendered :=
  match column_index "GEOID" (columns gdf) with
  | None => raise (KeyError "GEOID")
  | Some i =>
      if decide ("dominant_race" ∈ columns gdf)
      then raise (KeyError "dominant_race") else
      let merged_gdf :=
        (λ p : row * option demographic,
           MergedRow p.1 p.2 (merged_category p.2))
          <$> left_join (at_col i) GEOID (rows gdf) demographics in
      colors ← traverse (λ m, color_of (category m)) merged_gdf;
      handles ← legend_elements;
      let unmatched :=
        filter (λ m, category m = VStr "Unknown") merged_gdf in
      ok (Rendered
            (Figure colors handles "Dominant Race/Ethnicity"
               ("Dominant Race/Ethnicity by Census Tract - " +:+ county_name
                +:+ " County (2020)")
               output_path)
            (if decide (0 < length unmatched)%nat
             then Some ((λ m, (at_col i (tract m), category m)) <$> unmatched)
             else None)
            merged_gdf)
  end.

(** What the script leaves on disk: an image per map, and the table of
    unmatched tracts. *)
Inductive artifact : Type :=
  | Image (fig : figure)
  | Table (lines : list (cell * cell)).

(** The writes of one [create_racial_map] call that returned, in their
    order: [plt.savefig(output_path)], then, when there are unmatched
    rows, [to_csv('unmatched_tracts.csv')]. *)
Definition outputs (r : rendered) (fs : gmap string artifact)
    : gmap string artifact :=
  let saved := <[saved_to (drawn r) := Image (drawn r)]> fs in
  match unmatched_csv r with
  | Some lines => <["unmatched_tracts.csv" := Table lines]> saved
  | None => saved
  end.

Section Script.

(** The tract provider and the per-encoding reader of the PL files. *)
Variable tracts : string → Z → result frame.
Variable read_csv_as : string → string → result frame.

Definition get_tracts (state : string) : result frame :=
  tracts_gdf ← tracts state 2020;
  geoid ← getitem "GEOID" tracts_gdf;
  ok (setitem "GEOID" (astype_str <$> geoid) tracts_gdf).

(** Lines 203-212: the downloads, the two extractions, the two county
    filters.  Nothing is written yet. *)
Definition prepare
    : result (frame * list demographic * frame * list demographic) :=
  tx_tracts ← get_tracts "48";
  mi_tracts ← get_tracts "26";
  demo_mi ← read_pl_data read_csv_as
               "mi2020.pl/migeo2020.pl" "mi2020.pl/mi000012020.pl";
  demo_tx ← read_pl_data read_csv_as
               "tx2020.pl/txgeo2020.pl" "tx2020.pl/tx000012020.pl";
  wayne_tracts ← filter_eq "COUNTYFP" "163" mi_tracts;
  travis_tracts ← filter_eq "COUNTYFP" "453" tx_tracts;
  ok (wayne_tracts, demo_mi, travis_tracts, demo_tx).

(** The whole script (lines 203-215) on a disk [fs]: how it ends and
    what the disk holds then.  A map that raises has written nothing; the
    map before it has. *)
Definition script (fs : gmap string artifact)
    : result unit * gmap string artifact :=
  match prepare with
  | inl e => (inl e, fs)
  | inr (wayne_tracts, demo_mi, travis_tracts, demo_tx) =>
      match create_racial_map wayne_tracts demo_mi
              "output/ouwayne_map.png" "Wayne" with
      | inl e => (inl e, fs)
      | inr wayne =>
          match create_racial_map travis_tracts demo_tx
                  "output/travis_map.png" "Travis" with
          | inl e => (inl e, outputs wayne fs)
          | inr travis => (ok (), outputs travis (outputs wayne fs))
          end
      end
  end.

End Script.

End RaceDemo.

(** * Specification vocabulary *)

(** Position [k] holds label [c] with value [v], no value of the row
    exceeds [v], and every value before [k] is strictly below it. *)
Definition first_max (l : list (string * option Z)) (k : nat) (c : string)
    (v : Z) : Prop :=
  l !! k = Some (c, Some v)
  ∧ (∀ j c' v', l !! j = Some (c', Some v') → v' ≤ v)
  ∧ (∀ j c' v', (j < k)%nat → l !! j = Some (c', Some v') → v' < v).

Definition all_missing (l : list (string * option Z)) : Prop :=
  ∀ j c' o, l !! j = Some (c', o) → o = None.

(** The seven category columns of a demographic row, in the order of
    [race_cols]. *)
Definition race_values (d : RaceDemo.demographic) : list (string * option Z) :=
  RaceDemo.race_cols (RaceDemo.white_nh d) (RaceDemo.black_alone d)
    (RaceDemo.aian_alone d) (RaceDemo.asian_alone d) (RaceDemo.nhpi_alone d)
    (RaceDemo.other_alone d) (RaceDemo.hispanic d).


(** * Sample inputs *)

Definition numbered (n : nat) : list string := pretty <$> seq 0 n.

(** A Part 1 row: six leading fields, the total, the six race-alone
    counts, sixty further fields and the Hispanic count at position 73. *)
Definition part1_row (total white black aian asian nhpi other hisp : string)
    : row :=
  (VStr <$> ["PLST"; "MI"; "000"; "01"; "0000001"; "x"])
  ++ (VStr <$> [total; white; black; aian; asian; nhpi; other])
  ++ replicate 60 (VStr "0") ++ [VStr hisp].

(** A geographic-header row: the tract identifier at position 9, the
    county name at 14, the two adjacency fields at 88 and 90. *)
Definition geo_row (geoid county before after : string) : row :=
  replicate 9 (VStr "g") ++ [VStr geoid] ++ replicate 4 (VStr "g")
  ++ [VStr county] ++ replicate 73 (VStr "g") ++ [VStr before]
  ++ [VStr "g"] ++ [VStr after].

Definition sample_part1 : frame :=
  Frame (numbered 74)
    [ part1_row "100" "80" "5" "1" "2" "0" "2" "10";
      part1_row "50" "10" "20" "0" "0" "0" "0" "20" ].

Definition sample_geo : frame :=
  Frame (numbered 91)
    [ geo_row "26163500100" " Wayne County " "161" "165";
      geo_row "04001000100" "Apache County" "003" "005" ].

Definition sample_demographics : list RaceDemo.demographic :=
  match RaceDemo.extract sample_geo sample_part1 with
  | inr out => out
  | inl _ => []
  end.

Definition sample_first : RaceDemo.demographic :=
  RaceDemo.build_row
    (at_col 6 <$> rows sample_part1) (at_col 7 <$> rows sample_part1)
    (at_col 8 <$> rows sample_part1) (at_col 9 <$> rows sample_part1)
    (at_col 10 <$> rows sample_part1) (at_col 11 <$> rows sample_part1)
    (at_col 12 <$> rows sample_part1) (at_col 73 <$> rows sample_part1)
    (at_col 9 <$> rows sample_geo) (at_col 14 <$> rows sample_geo)
    (at_col 88 <$> rows sample_geo) (at_col 90 <$> rows sample_geo) 0.

Definition sample_second : RaceDemo.demographic :=
  RaceDemo.build_row
    (at_col 6 <$> rows sample_part1) (at_col 7 <$> rows sample_part1)
    (at_col 8 <$> rows sample_part1) (at_col 9 <$> rows sample_part1)
    (at_col 10 <$> rows sample_part1) (at_col 11 <$> rows sample_part1)
    (at_col 12 <$> rows sample_part1) (at_col 73 <$> rows sample_part1)
    (at_col 9 <$> rows sample_geo) (at_col 14 <$> rows sample_geo)
    (at_col 88 <$> rows sample_geo) (at_col 90 <$> rows sample_geo) 1.


(** A reader under which [third.pl] decodes only as cp1252 and
    [none.pl] under no candidate. *)
Definition sample_reader (file_path encoding : string) : result frame :=
  if decide (file_path = "third.pl") then
    if decide (encoding = "cp1252") then ok sample_geo
    else raise UnicodeDecodeError
  else if decide (file_path = "none.pl") then raise UnicodeDecodeError
  else ok sample_part1.

(** Two tracts, and an ROI table in which the first tract's identifier
    occurs twice and the second's not at all. *)
Definition sample_tract_rows : list row :=
  [ [VStr "26163500100"; VStr "163"]; [VStr "26163500200"; VStr "163"] ].


(** The frame [df] with [f] applied to the cells of column [i]. *)
Definition map_column (f : cell → cell) (i : nat) (df : frame) : frame :=
  Frame (columns df) ((λ r, <[i := f (at_col i r)]> r) <$> rows df).

(** [df'] is [df] with [f] applied down column [i] and nothing else
    touched: same header, same number of rows, each row as long as
    before and equal to the old one outside position [i]. *)
Definition only_column_changed (f : cell → cell) (i : nat) (df df' : frame)
    : Prop :=
  columns df' = columns df
  ∧ length (rows df') = length (rows df)
  ∧ ∀ k r, rows df !! k = Some r →
      ∃ r', rows df' !! k = Some r'
        ∧ length r' = length r
        ∧ ((i < length r)%nat → r' !! i = Some (f (at_col i r)))
        ∧ ∀ c, c ≠ i → r' !! c = r !! c.

(** An ROI frame as [read_csv] returns it (identifiers inferred to be
    integers) and the tract frame, held by a caller at [0] and [1]. *)
Definition sample_roi : frame :=
  Frame ["FIPS"; "COMP_RANK"]
    [ [VInt 26163500100; VInt 1]; [VInt 26163500300; VInt 4] ].

Definition sample_tracts : frame :=
  Frame ["GEOID"; "COUNTYFP"] sample_tract_rows.

Definition sample_store : store :=
  {[ 0%nat := sample_roi; 1%nat := sample_tracts ]}.

(** An Arizona tract (state 04) as the provider returns it, and an ROI
    file listing that same tract. *)
Definition az_tracts : frame :=
  Frame ["GEOID"; "COUNTYFP"] [ [VStr "04001000100"; VStr "001"] ].

Definition az_provider (state : string) (year : Z) : result frame :=
  if decide (state = "04") then ok az_tracts
  else raise (OtherError "no such state").

Definition az_roi_file : table :=
  [ ["FIPS"; "COMP_RANK"]; ["04001000100"; "1"] ].

Definition az_files : gmap string table := {[ "roi.csv" := az_roi_file ]}.



(** A merged opportunity frame holding rank 4, which the colour scheme
    does not list. *)
Definition rank4_merged : merged :=
  Merged ["GEOID"; "COUNTYFP"] ["FIPS"; "COMP_RANK"]
    [ ([VStr "26163500300"; VStr "163"],
       Some [VStr "26163500300"; VInt 4]) ].

(** The legend handles of the two renderers. *)
Definition opportunity_patches : list patch :=
  [ Patch "#2ecc71" "High Opportunity Area";
    Patch "#f1c40f" "Medium Opportunity Area";
    Patch "#e74c3c" "Low Opportunity Area" ].

Definition racial_patches : list patch :=
  [ Patch "#FFB6C1" "White (Non-Hispanic)";
    Patch "#87CEEB" "Black/African American";
    Patch "#98FB98" "Asian";
    Patch "#DDA0DD" "Hispanic/Latino";
    Patch "#F0E68C" "American Indian/Alaska Native";
    Patch "#FFA07A" "Native Hawaiian/Pacific Islander";
    Patch "#D3D3D3" "Other Race";
    Patch "#FFFFFF" "Unknown" ].

(** The statement that every category present in the input of the
    opportunity renderer has a legend patch of the colour it is drawn
    in. *)
Definition legend_covers_input : Prop :=
  ∀ df city_name output_path fig ranks,
    Opportunity.create_opportunity_map df city_name output_path = ok fig →
    merged_getitem "COMP_RANK" df = ok ranks →
    ∀ c, c ∈ ranks →
      ∃ p, p ∈ legend fig ∧ facecolor p = Opportunity.fill_of c.


(** A category cell that is a key of the racial colour scheme. *)
Definition listed (c : cell) : Prop :=
  ∃ s col, c = VStr s ∧ dict_get s RaceDemo.color_scheme = Some col.

(** Every cell the rows of [df] hold at position [i] is text. *)
Definition text_column (i : nat) (df : frame) : Prop :=
  ∀ r c, r ∈ rows df → r !! i = Some c → is_str c = true.


(** A provider frame whose identifiers are integers, and one without an
    identifier column. *)
Definition numeric_tracts : frame :=
  Frame ["GEOID"; "COUNTYFP"]
    [ [VInt 26163500100; VStr "163"]; [VInt 26161400100; VStr "161"] ].

Definition numeric_provider (state : string) (year : Z) : result frame :=
  if decide (state = "26" ∧ year = 2020) then ok numeric_tracts
  else raise (OtherError "no such state").

Definition nameless_store : store :=
  {[ 0%nat := Frame ["tract"; "COMP_RANK"] [ [VInt 26163500100; VInt 1] ];
     1%nat := sample_tracts ]}.

Definition keyless_store : store :=
  {[ 0%nat := sample_roi;
     1%nat := Frame ["tract"; "COUNTYFP"] sample_tract_rows ]}.





(** A provider and an ROI file for the Detroit map of the script. *)
Definition mi_provider (state : string) (year : Z) : result frame :=
  if decide (state = "26") then
    ok (Frame ["GEOID"; "COUNTYFP"]
          [ [VStr "26163500100"; VStr "163"];
            [VStr "26161400100"; VStr "161"];
            [VStr "26163500200"; VStr "163"] ])
  else raise (OtherError "no such state").

Definition detroit_files : gmap string table :=
  {[ "data/roi/detroit_roi.csv" :=
       [ ["FIPS"; "COMP_RANK"]; ["26163500100"; "1"];
         ["26163500300"; "2"] ] ]}.

(** Text that does not begin, or does not end, with a whitespace
    character. *)
Definition starts_clean (s : string) : Prop :=
  match s with
  | String a _ => isspace a = false
  | EmptyString => True
  end.

Definition ends_clean (s : string) : Prop := starts_clean (String.rev s).

(** A header row without a county name and a Part 1 row without a
    numeric Hispanic count. *)
Definition blank_geo : frame :=
  Frame (numbered 91)
    [ replicate 9 (VStr "g") ++ [VStr "26163500100"] ++ replicate 4 (VStr "g")
      ++ [VNaN] ++ replicate 76 (VStr "g") ].

Definition blank_part1 : frame :=
  Frame (numbered 74)
    [ part1_row "100" "80" "5" "1" "2" "0" "2" "n/a" ].

Definition blank_demographics : list RaceDemo.demographic :=
  match RaceDemo.extract blank_geo blank_part1 with
  | inr out => out
  | inl _ => []
  end.

Definition blank_first : RaceDemo.demographic :=
  RaceDemo.build_row
    (at_col 6 <$> rows blank_part1) (at_col 7 <$> rows blank_part1)
    (at_col 8 <$> rows blank_part1) (at_col 9 <$> rows blank_part1)
    (at_col 10 <$> rows blank_part1) (at_col 11 <$> rows blank_part1)
    (at_col 12 <$> rows blank_part1) (at_col 73 <$> rows blank_part1)
    (at_col 9 <$> rows blank_geo) (at_col 14 <$> rows blank_geo)
    (at_col 88 <$> rows blank_geo) (at_col 90 <$> rows blank_geo) 0.

(** A provider and a PL reader for the race script: two Wayne County
    tracts, of which the header file knows one, and one Travis County
    tract, which it does not know. *)
Definition race_provider (state : string) (year : Z) : result frame :=
  if decide (state = "26") then
    ok (Frame ["GEOID"; "COUNTYFP"]
          [ [VStr "26163500100"; VStr "163"];
            [VStr "26163500200"; VStr "163"] ])
  else if decide (state = "48") then
    ok (Frame ["GEOID"; "COUNTYFP"] [ [VStr "48453000100"; VStr "453"] ])
  else raise (OtherError "no such state").

Definition race_reader (file_path encoding : string) : result frame :=
  if decide (file_path = "mi2020.pl/migeo2020.pl"
             ∨ file_path = "tx2020.pl/txgeo2020.pl")
  then ok sample_geo
  else ok sample_part1.

(** A disk holding a side file left by an earlier run. *)
Definition stale_disk : gmap string RaceDemo.artifact :=
  {[ "unmatched_tracts.csv" := RaceDemo.Table [(VStr "old", VStr "Unknown")] ]}.

(** A Part 1 frame too narrow for the Hispanic count at position 73. *)
Definition narrow_part1 : frame :=
  Frame (numbered 20) [ replicate 20 (VStr "0") ].

(** The Wayne County map of the sample tracts and demographics. *)
Definition sample_wayne : RaceDemo.rendered :=
  match RaceDemo.create_racial_map sample_tracts sample_demographics
          "output/ouwayne_map.png" "Wayne" with
  | inr r => r
  | inl _ => RaceDemo.Rendered (Figure [] [] "" "" "") None []
  end.

(** What the race script has prepared from the sample provider and
    reader when it starts drawing. *)
Definition race_prepared
    : frame * list RaceDemo.demographic * frame * list RaceDemo.demographic :=
  match RaceDemo.prepare race_provider race_reader with
  | inr prepared => prepared
  | inl _ => (Frame [] [], [], Frame [] [], [])
  end.

(** * Properties of the pandas layer *)

Section IdxmaxFacts.

Implicit Types (l : list (string * option Z)) (c : string) (v : Z).

Lemma argmax_from_spec l : ∀ best bv,
  (argmax_from best bv l = best
   ∧ ∀ j c' v', l !! j = Some (c', Some v') → v' ≤ bv)
  ∨ (∃ k v, first_max l k (argmax_from best bv l) v ∧ bv < v).
Proof.
  induction l as [|[c [v|]] l IH]; intros best bv; simpl.
  - left. split; [done|]. intros j c' v' Hj. by rewrite lookup_nil in Hj.
  - destruct (Z.ltb_spec bv v) as [Hlt|Hge].
    + right. destruct (IH c v) as [[-> Hle]|(k & w & (Hk & Hmax & Hfirst) & Hw)].
      * exists 0%nat, v. split; [|done]. split; [done|]. split.
        -- intros [|j] c' v' Hj; simpl in Hj; [by simplify_eq; lia|eauto].
        -- intros j c' v' Hj. lia.
      * exists (S k), w. split; [|lia]. split; [done|]. split.
        -- intros [|j] c' v' Hj; simpl in Hj; [simplify_eq; lia|eauto].
        -- intros [|j] c' v' Hjk Hj; simpl in Hj; [simplify_eq; lia|].
           eapply Hfirst; [|done]. lia.
    + destruct (IH best bv) as [[-> Hle]|(k & w & (Hk & Hmax & Hfirst) & Hw)].
      * left. split; [done|].
        intros [|j] c' v' Hj; simpl in Hj; [simplify_eq; lia|eauto].
      * right. exists (S k), w. split; [|done]. split; [done|]. split.
        -- intros [|j] c' v' Hj; simpl in Hj; [simplify_eq; lia|eauto].
        -- intros [|j] c' v' Hjk Hj; simpl in Hj; [simplify_eq; lia|].
           eapply Hfirst; [|done]. lia.
  - destruct (IH best bv) as [[-> Hle]|(k & w & (Hk & Hmax & Hfirst) & Hw)].
    + left. split; [done|].
      intros [|j] c' v' Hj; simpl in Hj; [simplify_eq|eauto].
    + right. exists (S k), w. split; [|done]. split; [done|]. split.
      * intros [|j] c' v' Hj; simpl in Hj; [simplify_eq|eauto].
      * intros [|j] c' v' Hjk Hj; simpl in Hj; [simplify_eq|].
        eapply Hfirst; [|done]. lia.
Qed.

(** [idxmax] either reports a whole row missing or returns the first
    position of the maximum. *)
Lemma idxmax_spec l :
  (idxmax l = None ∧ all_missing l)
  ∨ (∃ k c v, idxmax l = Some c ∧ first_max l k c v).
Proof.
  induction l as [|[c [v|]] l IH]; simpl.
  - left. split; [done|]. intros j c' o Hj. by rewrite lookup_nil in Hj.
  - right. destruct (argmax_from_spec l c v)
      as [[-> Hle]|(k & w & (Hk & Hmax & Hfirst) & Hw)].
    + exists 0%nat, c, v. split; [done|]. split; [done|]. split.
      * intros [|j] c' v' Hj; simpl in Hj; [simplify_eq; lia|eauto].
      * intros j c' v' Hj. lia.
    + exists (S k), (argmax_from c v l), w. split; [done|].
      split; [done|]. split.
      * intros [|j] c' v' Hj; simpl in Hj; [simplify_eq; lia|eauto].
      * intros [|j] c' v' Hjk Hj; simpl in Hj; [simplify_eq; lia|].
        eapply Hfirst; [|done]. lia.
  - destruct IH as [[-> Hall]|(k & c' & v & -> & Hk & Hmax & Hfirst)].
    + left. split; [done|].
      intros [|j] c' o Hj; simpl in Hj; [by simplify_eq|eauto].
    + right. exists (S k), c', v. split; [done|]. split; [done|]. split.
      * intros [|j] c'' v' Hj; simpl in Hj; [simplify_eq|eauto].
      * intros [|j] c'' v' Hjk Hj; simpl in Hj; [simplify_eq|].
        eapply Hfirst; [|done]. lia.
Qed.

(** The first position of the maximum is unique. *)
Lemma first_max_unique l k1 c1 v1 k2 c2 v2 :
  first_max l k1 c1 v1 → first_max l k2 c2 v2 → k1 = k2 ∧ c1 = c2 ∧ v1 = v2.
Proof.
  intros (H1 & M1 & F1) (H2 & M2 & F2).
  destruct (Nat.lt_trichotomy k1 k2) as [Hlt|[->|Hlt]].
  - pose proof (F2 _ _ _ Hlt H1). pose proof (M1 _ _ _ H2). lia.
  - by simplify_eq.
  - pose proof (F1 _ _ _ Hlt H2). pose proof (M2 _ _ _ H1). lia.
Qed.

End IdxmaxFacts.

(** * Properties of the extractor *)

Lemma iloc_ok_inv k df col :
  iloc k df = ok col → (k < length (columns df))%nat ∧ col = at_col k <$> rows df.
Proof. unfold iloc. case_decide; intros; by simplify_eq. Qed.

Lemma iloc_in_range k df :
  (k < length (columns df))%nat → iloc k df = ok (at_col k <$> rows df).
Proof. intros. unfold iloc. by rewrite decide_True. Qed.

Lemma result_bind_ok {A B} (m : result A) (k : A → result B) b :
  (m ≫= k) = ok b → ∃ a, m = ok a ∧ k a = ok b.
Proof. destruct m as [e|a]; [done|]. intros. by exists a. Qed.

(** A successful extraction is the row builder applied to each Part 1
    row number. *)
Lemma extract_ok_inv geo_df part1_df out :
  RaceDemo.extract geo_df part1_df = ok out →
  (73 < length (columns part1_df))%nat ∧ (90 < length (columns geo_df))%nat
  ∧ out = RaceDemo.build_row
      (at_col 6 <$> rows part1_df) (at_col 7 <$> rows part1_df)
      (at_col 8 <$> rows part1_df) (at_col 9 <$> rows part1_df)
      (at_col 10 <$> rows part1_df) (at_col 11 <$> rows part1_df)
      (at_col 12 <$> rows part1_df) (at_col 73 <$> rows part1_df)
      (at_col 9 <$> rows geo_df) (at_col 14 <$> rows geo_df)
      (at_col 88 <$> rows geo_df) (at_col 90 <$> rows geo_df)
      <$> seq 0 (length (rows part1_df)).
Proof.
  unfold RaceDemo.extract, iloc. intros H.
  repeat
    match type of H with
    | mbind _ (match decide ?P with left _ => _ | right _ => _ end) = _ =>
        destruct (decide P); [simpl in H|by simpl in H]
    end.
  unfold ok in H. simplify_eq. split_and!; [lia|lia|done].
Qed.

Lemma extract_total geo_df part1_df :
  (73 < length (columns part1_df))%nat → (90 < length (columns geo_df))%nat →
  ∃ out, RaceDemo.extract geo_df part1_df = ok out.
Proof.
  intros Hp Hg. unfold RaceDemo.extract.
  rewrite !iloc_in_range by lia. simpl. eauto.
Qed.

(** The two derived columns of every extracted row. *)
Lemma extract_derived geo_df part1_df out d :
  RaceDemo.extract geo_df part1_df = ok out → d ∈ out →
  RaceDemo.white_nh d = num_sub (RaceDemo.white_alone d) (RaceDemo.hispanic d)
  ∧ RaceDemo.dominant_race d = RaceDemo.label_cell (idxmax (race_values d)).
Proof.
  intros (_ & _ & ->)%extract_ok_inv (i & -> & _)%list_elem_of_fmap. done.
Qed.



Lemma sample_extract :
  RaceDemo.extract sample_geo sample_part1 = ok sample_demographics.
Proof. vm_compute. reflexivity. Qed.

Lemma sample_first_in : sample_first ∈ sample_demographics.
Proof. vm_compute. apply list_elem_of_here. Qed.

(** * The demographic extractor *)

(** C2: in every extracted row the dominant category is the label of the
    first position, in the order of [race_cols], that holds the maximum of
    the seven counts (missing counts skipped; the label is missing only
    when all seven are); a value equal to the maximum at a later position
    does not displace it.  In particular white_alone = 80 and hispanic =
    10 give white_nh = 70 and the label white_nh when every other count
    is below 70. *)
Theorem dominant_race_first_max geo_df part1_df out d :
  RaceDemo.extract geo_df part1_df = ok out → d ∈ out →
  ((RaceDemo.dominant_race d = VNaN ∧ all_missing (race_values d))
   ∨ (∃ k c v, RaceDemo.dominant_race d = VStr c
               ∧ first_max (race_values d) k c v))
  ∧ (RaceDemo.white_alone d = Some 80 → RaceDemo.hispanic d = Some 10 →
     (∀ k c v, (0 < k)%nat → race_values d !! k = Some (c, Some v) → v < 70) →
     RaceDemo.white_nh d = Some 70
     ∧ RaceDemo.dominant_race d = VStr "white_nh").
Proof.
  intros Hex Hd. destruct (extract_derived _ _ _ _ Hex Hd) as [Hnh Hdom].
  assert (Hchar : (RaceDemo.dominant_race d = VNaN ∧ all_missing (race_values d))
    ∨ (∃ k c v, RaceDemo.dominant_race d = VStr c
                ∧ first_max (race_values d) k c v)).
  { rewrite Hdom.
    destruct (idxmax_spec (race_values d)) as [[-> Hall]|(k & c & v & -> & Hfm)].
    - by left.
    - right. by exists k, c, v. }
  split; [done|]. intros Hw Hh Hothers.
  assert (Hseventy : RaceDemo.white_nh d = Some 70).
  { rewrite Hnh, Hw, Hh. reflexivity. }
  split; [done|].
  assert (Hzero : first_max (race_values d) 0 "white_nh" 70).
  { split; [|split].
    - unfold race_values, RaceDemo.race_cols. by rewrite Hseventy.
    - intros [|j] c' v' Hj.
      + unfold race_values, RaceDemo.race_cols in Hj. rewrite Hseventy in Hj.
        simpl in Hj. simplify_eq. lia.
      + pose proof (Hothers (S j) c' v' ltac:(lia) Hj). lia.
    - intros j c' v' Hj. lia. }
  destruct Hchar as [[_ Hall]|(k & c & v & Hc & Hfm)].
  - destruct Hzero as [Hz _]. by apply Hall in Hz.
  - destruct (first_max_unique _ _ _ _ _ _ _ Hfm Hzero) as (_ & -> & _). done.
Qed.

Lemma dominant_race_first_max_witness :
  RaceDemo.extract sample_geo sample_part1 = ok sample_demographics
  ∧ sample_first ∈ sample_demographics
  ∧ RaceDemo.white_nh sample_first = Some 70
  ∧ RaceDemo.dominant_race sample_first = VStr "white_nh".
Proof.
  split; [vm_compute; reflexivity|].
  split; [vm_compute; apply list_elem_of_here|].
  apply (dominant_race_first_max sample_geo sample_part1
           sample_demographics sample_first sample_extract sample_first_in).
  - reflexivity.
  - reflexivity.
  - intros k c v Hk Hlook.
    do 7 (destruct k as [|k]; [simpl in Hlook; simplify_eq; lia|]).
    by simpl in Hlook.
Defined.

(** Black-alone and Hispanic both at 20, non-Hispanic white at -10: the
    earlier of the two equal maxima is the label. *)
Example tie_goes_to_first_column :
  race_values sample_second
  = [ ("white_nh", Some (-10)); ("black_alone", Some 20);
      ("aian_alone", Some 0); ("asian_alone", Some 0); ("nhpi_alone", Some 0);
      ("other_alone", Some 0); ("hispanic", Some 20) ]
  ∧ RaceDemo.dominant_race sample_second = VStr "black_alone".
Proof. split; reflexivity. Qed.





(** * The PL-file reader *)

(** C5: the reader tries latin1, iso-8859-1 and cp1252 in this order; a
    decode failure under one candidate moves on to the next, any other
    outcome of an attempt is the reader's outcome; so a file that decodes
    only under the third candidate is read, and when all three fail to
    decode the reader raises a ValueError whose message contains the file
    path. *)
Theorem read_pl_file_fallback
    (read_csv_as : string → string → result frame) (file_path : string) :
  RaceDemo.encodings = [ "latin1"; "iso-8859-1"; "cp1252" ]
  ∧ (read_csv_as file_path "latin1" ≠ raise UnicodeDecodeError →
     RaceDemo.read_pl_file read_csv_as file_path
     = read_csv_as file_path "latin1")
  ∧ (read_csv_as file_path "latin1" = raise UnicodeDecodeError →
     read_csv_as file_path "iso-8859-1" ≠ raise UnicodeDecodeError →
     RaceDemo.read_pl_file read_csv_as file_path
     = read_csv_as file_path "iso-8859-1")
  ∧ (read_csv_as file_path "latin1" = raise UnicodeDecodeError →
     read_csv_as file_path "iso-8859-1" = raise UnicodeDecodeError →
     ∀ df, read_csv_as file_path "cp1252" = ok df →
     RaceDemo.read_pl_file read_csv_as file_path = ok df)
  ∧ (read_csv_as file_path "latin1" = raise UnicodeDecodeError →
     read_csv_as file_path "iso-8859-1" = raise UnicodeDecodeError →
     read_csv_as file_path "cp1252" = raise UnicodeDecodeError →
     RaceDemo.read_pl_file read_csv_as file_path
     = raise (ValueError ("Could not read file " +:+ file_path
                          +:+ " with any supported encoding"))).
Proof.
  unfold RaceDemo.read_pl_file, RaceDemo.encodings, raise, ok. simpl.
  split; [done|]. split; [|split; [|split]].
  - intros H1. destruct (read_csv_as file_path "latin1") as [[]|]; congruence.
  - intros -> H2.
    destruct (read_csv_as file_path "iso-8859-1") as [[]|]; congruence.
  - by intros -> -> df ->.
  - by intros -> -> ->.
Qed.

Lemma read_pl_file_fallback_witness :
  (sample_reader "third.pl" "latin1" = raise UnicodeDecodeError
   ∧ sample_reader "third.pl" "iso-8859-1" = raise UnicodeDecodeError
   ∧ sample_reader "third.pl" "cp1252" = ok sample_geo
   ∧ RaceDemo.read_pl_file sample_reader "third.pl" = ok sample_geo)
  ∧ (sample_reader "none.pl" "latin1" = raise UnicodeDecodeError
     ∧ sample_reader "none.pl" "iso-8859-1" = raise UnicodeDecodeError
     ∧ sample_reader "none.pl" "cp1252" = raise UnicodeDecodeError
     ∧ RaceDemo.read_pl_file sample_reader "none.pl"
       = raise (ValueError
                  "Could not read file none.pl with any supported encoding")).
Proof.
  split.
  - destruct (read_pl_file_fallback sample_reader "third.pl")
      as (_ & _ & _ & Hthird & _).
    split; [reflexivity|]. split; [reflexivity|]. split; [reflexivity|].
    apply Hthird; reflexivity.
  - destruct (read_pl_file_fallback sample_reader "none.pl")
      as (_ & _ & _ & _ & Hnone).
    split; [reflexivity|]. split; [reflexivity|]. split; [reflexivity|].
    apply Hnone; reflexivity.
Defined.

(** * The merger *)


Lemma join_row_length {A B} (rkey : B → cell) R k (l : A) :
  length (join_row rkey R k l) = (1 `max` length (matches rkey k R))%nat.
Proof.
  unfold join_row. destruct (matches rkey k R) as [|r ms]; [done|].
  rewrite length_fmap. simpl. lia.
Qed.




(** ** Key normalization on the store *)

Lemma astype_str_idemp c : astype_str (astype_str c) = astype_str c.
Proof. by destruct c. Qed.

Lemma astype_str_is_str c : is_str (astype_str c) = true.
Proof. by destruct c. Qed.

Lemma astype_str_text c : is_str c = true → astype_str c = c.
Proof. by destruct c. Qed.

Lemma setitem_existing name i (f : cell → cell) df :
  column_index name (columns df) = Some i →
  setitem name (f <$> (at_col i <$> rows df)) df = map_column f i df.
Proof.
  intros Hi. unfold setitem, map_column. rewrite Hi. f_equal.
  apply list_eq. intros k.
  rewrite list_lookup_imap, !list_lookup_fmap.
  destruct (rows df !! k) as [r|]; by simpl.
Qed.

Lemma at_col_insert i v (r : list cell) :
  (i < length r)%nat → at_col i (<[i := v]> r) = v.
Proof. intros Hi. unfold at_col. by rewrite list_lookup_insert_eq. Qed.

Lemma map_column_row_idemp i (r : list cell) :
  <[i := astype_str (at_col i (<[i := astype_str (at_col i r)]> r))]>
    (<[i := astype_str (at_col i r)]> r)
  = <[i := astype_str (at_col i r)]> r.
Proof.
  destruct (decide (i < length r)%nat) as [Hi|Hi].
  - rewrite at_col_insert by done.
    by rewrite astype_str_idemp, list_insert_insert_eq.
  - assert (Hge : <[i := astype_str (at_col i r)]> r = r)
      by (apply list_insert_ge; lia).
    by rewrite !Hge.
Qed.

Lemma map_column_idemp i df :
  map_column astype_str i (map_column astype_str i df)
  = map_column astype_str i df.
Proof.
  unfold map_column. simpl. f_equal. rewrite <- list_fmap_compose.
  apply list_fmap_ext. intros k r _. simpl. apply map_column_row_idemp.
Qed.

Lemma map_column_only_changed f i df :
  only_column_changed f i df (map_column f i df).
Proof.
  unfold only_column_changed, map_column. simpl.
  split; [done|]. split; [by rewrite length_fmap|].
  intros k r Hk. eexists. split; [by rewrite list_lookup_fmap, Hk|].
  split; [by rewrite length_insert|]. split.
  - intros Hi. by rewrite list_lookup_insert_eq.
  - intros c Hc. by rewrite list_lookup_insert_ne.
Qed.

Lemma assign_astype_str_run name l σ df i :
  σ !! l = Some df → column_index name (columns df) = Some i →
  assign_astype_str name l σ
  = (ok (), <[l := map_column astype_str i df]> σ).
Proof.
  intros Hl Hi. unfold assign_astype_str, bind_M, load, lift, put, getitem.
  rewrite Hl. simpl. rewrite Hi. simpl.
  by rewrite (setitem_existing _ _ _ _ Hi).
Qed.

Lemma assign_astype_str_inv name l σ σ' :
  assign_astype_str name l σ = (ok (), σ') →
  ∃ df i, σ !! l = Some df ∧ column_index name (columns df) = Some i
          ∧ σ' = <[l := map_column astype_str i df]> σ.
Proof.
  unfold assign_astype_str, bind_M, load, lift, put, getitem.
  destruct (σ !! l) as [df|] eqn:Hl; [|done]. simpl.
  destruct (column_index name (columns df)) as [i|] eqn:Hi; [|done].
  simpl. intros [= <-]. exists df, i.
  by rewrite (setitem_existing _ _ _ _ Hi).
Qed.

(** What a merge of two distinct objects returns and leaves behind. *)
Lemma merge_geo_roi_run σ roi geo R G i j :
  roi ≠ geo → σ !! roi = Some R → σ !! geo = Some G →
  column_index "FIPS" (columns R) = Some i →
  column_index "GEOID" (columns G) = Some j →
  Opportunity.merge_geo_roi roi geo σ
  = (ok (Merged (columns G) (columns R)
           (left_join (at_col j) (at_col i)
              (rows (map_column astype_str j G))
              (rows (map_column astype_str i R)))),
     <[geo := map_column astype_str j G]>
       (<[roi := map_column astype_str i R]> σ)).
Proof.
  intros Hne HR HG Hi Hj. unfold Opportunity.merge_geo_roi.
  unfold bind_M at 1. rewrite (assign_astype_str_run _ _ _ _ _ HR Hi).
  unfold bind_M at 1.
  rewrite (assign_astype_str_run "GEOID" geo _ G j);
    [|by rewrite lookup_insert_ne|done].
  unfold bind_M, load, lift.
  rewrite lookup_insert_eq, lookup_insert_ne, lookup_insert_eq by done.
  unfold merge_left. simpl. by rewrite Hi, Hj.
Qed.

Lemma merge_geo_roi_inv σ roi geo m σ' :
  roi ≠ geo → Opportunity.merge_geo_roi roi geo σ = (ok m, σ') →
  ∃ R G i j, σ !! roi = Some R ∧ σ !! geo = Some G
    ∧ column_index "FIPS" (columns R) = Some i
    ∧ column_index "GEOID" (columns G) = Some j.
Proof.
  intros Hne. unfold Opportunity.merge_geo_roi.
  unfold bind_M at 1.
  destruct (assign_astype_str "FIPS" roi σ) as [[e|[]] σ1] eqn:H1; [done|].
  apply assign_astype_str_inv in H1 as (R & i & HR & Hi & ->).
  unfold bind_M at 1.
  destruct (assign_astype_str "GEOID" geo _) as [[e|[]] σ2] eqn:H2; [done|].
  apply assign_astype_str_inv in H2 as (G & j & HG & Hj & ->).
  rewrite lookup_insert_ne in HG by done.
  intros _. by exists R, G, i, j.
Qed.

(** C9: converting a key column to text is idempotent.  On a cell, on
    the assignment [obj[name] = obj[name].astype(str)] run a second time
    on the store the first run left, and on the merge as a whole: a
    second merge of the same two objects returns the same joined rows and
    leaves the store as the first one did. *)
Theorem key_normalization_idempotent :
  (∀ c, astype_str (astype_str c) = astype_str c)
  ∧ (∀ name l (σ σ' : store),
       assign_astype_str name l σ = (ok (), σ') →
       assign_astype_str name l σ' = (ok (), σ'))
  ∧ (∀ (σ σ' : store) roi geo m,
       roi ≠ geo →
       Opportunity.merge_geo_roi roi geo σ = (ok m, σ') →
       Opportunity.merge_geo_roi roi geo σ' = (ok m, σ')).
Proof.
  split; [exact astype_str_idemp|]. split.
  - intros name l σ σ' (df & i & Hl & Hi & ->)%assign_astype_str_inv.
    rewrite (assign_astype_str_run name l _ (map_column astype_str i df) i);
      [|by rewrite lookup_insert_eq|done].
    by rewrite map_column_idemp, insert_insert_eq.
  - intros σ σ' roi geo m Hne Hrun.
    destruct (merge_geo_roi_inv _ _ _ _ _ Hne Hrun)
      as (R & G & i & j & HR & HG & Hi & Hj).
    rewrite (merge_geo_roi_run _ _ _ _ _ _ _ Hne HR HG Hi Hj) in Hrun.
    injection Hrun as <- <-.
    rewrite (merge_geo_roi_run _ roi geo
               (map_column astype_str i R) (map_column astype_str j G) i j);
      [|done|by rewrite lookup_insert_ne, lookup_insert_eq
       |by rewrite lookup_insert_eq|done|done].
    rewrite !map_column_idemp. simpl. f_equal.
    apply map_eq. intros l. rewrite !lookup_insert.
    repeat case_decide; by simplify_eq.
Qed.

Lemma key_normalization_idempotent_witness :
  (0 ≠ 1)%nat
  ∧ ∃ m σ',
      Opportunity.merge_geo_roi 0%nat 1%nat sample_store = (ok m, σ')
      ∧ Opportunity.merge_geo_roi 0%nat 1%nat σ' = (ok m, σ').
Proof.
  split; [lia|].
  destruct (Opportunity.merge_geo_roi 0%nat 1%nat sample_store)
    as [[e|m] σ'] eqn:Hrun; [by vm_compute in Hrun|].
  exists m, σ'. split; [done|].
  destruct key_normalization_idempotent as (_ & _ & Hmerge).
  apply (Hmerge sample_store σ' 0%nat 1%nat m); [lia|exact Hrun].
Defined.

(** C10: the merge writes into its arguments.  For two distinct objects
    holding a FIPS and a GEOID column, the merge returns, and afterwards
    the caller's ROI object is the old one with its FIPS column converted
    to text and its GEOID-side object the old one with its GEOID column
    converted, every other column, the header and the number of rows
    unchanged, and no other object touched.  Whenever a FIPS cell was not
    text already, the ROI object is no longer what the caller passed. *)
Theorem merge_geo_roi_mutates (σ : store) roi geo R G i j :
  roi ≠ geo → σ !! roi = Some R → σ !! geo = Some G →
  column_index "FIPS" (columns R) = Some i →
  column_index "GEOID" (columns G) = Some j →
  ∃ m σ' R' G',
    Opportunity.merge_geo_roi roi geo σ = (ok m, σ')
    ∧ σ' !! roi = Some R' ∧ σ' !! geo = Some G'
    ∧ only_column_changed astype_str i R R'
    ∧ only_column_changed astype_str j G G'
    ∧ (∀ l, l ≠ roi → l ≠ geo → σ' !! l = σ !! l)
    ∧ ((∃ k r c, rows R !! k = Some r ∧ r !! i = Some c ∧ is_str c = false) →
       R' ≠ R).
Proof.
  intros Hne HR HG Hi Hj.
  eexists _, _, (map_column astype_str i R), (map_column astype_str j G).
  split; [exact (merge_geo_roi_run _ _ _ _ _ _ _ Hne HR HG Hi Hj)|].
  split; [by rewrite lookup_insert_ne, lookup_insert_eq|].
  split; [by rewrite lookup_insert_eq|].
  split; [apply map_column_only_changed|].
  split; [apply map_column_only_changed|].
  split; [intros l Hr Hg; by rewrite !lookup_insert_ne|].
  intros (k & r & c & Hk & Hc & Hstr) Heq.
  assert (Hrow : rows (map_column astype_str i R) !! k
                 = Some (<[i := astype_str (at_col i r)]> r)).
  { unfold map_column. simpl. by rewrite list_lookup_fmap, Hk. }
  rewrite Heq, Hk in Hrow. injection Hrow as Hrow.
  assert (Hcell : r !! i = Some (astype_str (at_col i r))).
  { rewrite Hrow at 1. apply list_lookup_insert_eq.
    by eapply lookup_lt_Some. }
  unfold at_col in Hcell. rewrite Hc in Hcell. simpl in Hcell.
  injection Hcell as Hcell. rewrite Hcell, astype_str_is_str in Hstr. done.
Qed.

(** The ROI object of the sample store before and after one merge. *)
Example sample_store_after_merge :
  sample_store !! 0%nat
  = Some (Frame ["FIPS"; "COMP_RANK"]
            [ [VInt 26163500100; VInt 1]; [VInt 26163500300; VInt 4] ])
  ∧ (Opportunity.merge_geo_roi 0%nat 1%nat sample_store).2 !! 0%nat
    = Some (Frame ["FIPS"; "COMP_RANK"]
              [ [VStr "26163500100"; VInt 1]; [VStr "26163500300"; VInt 4] ]).
Proof. split; vm_compute; reflexivity. Qed.

Lemma merge_geo_roi_mutates_witness :
  (0 ≠ 1)%nat
  ∧ sample_store !! 0%nat = Some sample_roi
  ∧ sample_store !! 1%nat = Some sample_tracts
  ∧ column_index "FIPS" (columns sample_roi) = Some 0%nat
  ∧ column_index "GEOID" (columns sample_tracts) = Some 0%nat
  ∧ ∃ m σ' R' G',
      Opportunity.merge_geo_roi 0%nat 1%nat sample_store = (ok m, σ')
      ∧ σ' !! 0%nat = Some R' ∧ σ' !! 1%nat = Some G'
      ∧ only_column_changed astype_str 0 sample_roi R'
      ∧ only_column_changed astype_str 0 sample_tracts G'
      ∧ (∀ l, l ≠ 0%nat → l ≠ 1%nat → σ' !! l = sample_store !! l)
      ∧ ((∃ k r c, rows sample_roi !! k = Some r ∧ r !! 0%nat = Some c
                   ∧ is_str c = false) →
         R' ≠ sample_roi).
Proof.
  assert (H01 : (0 ≠ 1)%nat) by lia.
  assert (HR : sample_store !! 0%nat = Some sample_roi) by reflexivity.
  assert (HG : sample_store !! 1%nat = Some sample_tracts) by reflexivity.
  assert (Hi : column_index "FIPS" (columns sample_roi) = Some 0%nat)
    by reflexivity.
  assert (Hj : column_index "GEOID" (columns sample_tracts) = Some 0%nat)
    by reflexivity.
  split; [exact H01|]. split; [exact HR|]. split; [exact HG|].
  split; [exact Hi|]. split; [exact Hj|].
  apply (merge_geo_roi_mutates sample_store 0%nat 1%nat
           sample_roi sample_tracts 0%nat 0%nat H01 HR HG Hi Hj).
Defined.

(** * Identifiers as join keys *)

(** Once merged, both key columns hold text only. *)
Lemma map_column_astype_str_text i df r :
  r ∈ rows (map_column astype_str i df) → (i < length r)%nat →
  is_str (at_col i r) = true.
Proof.
  unfold map_column. simpl. intros (r0 & -> & _)%list_elem_of_fmap Hi.
  rewrite length_insert in Hi. rewrite at_col_insert by done.
  apply astype_str_is_str.
Qed.

(** Text read with [dtype=str] is what the file holds, and converting it
    to text again changes nothing: this is the route the PL reader
    takes. *)
Lemma text_identifier_kept (s : string) :
  s ∉ na_values → astype_str (text_cell s) = VStr s.
Proof. intros Hs. unfold text_cell. by rewrite decide_False. Qed.

(** C1: the ROI file is read with inferred column types, so a FIPS
    column of digits is an integer column before the merge converts it
    to text, and the text it gets is the integer's: 04001000100 is
    compared as 4001000100.  The Arizona tract of that identifier is left
    without its ROI row. *)
Theorem roi_identifier_loses_leading_zero :
  (read_csv az_roi_file ≫= getitem "FIPS") = ok [VInt 4001000100]
  ∧ astype_str (VInt 4001000100) = VStr "4001000100"
  ∧ Opportunity.load_and_merge az_provider az_files "04" "001" "roi.csv"
    = ok (Merged ["GEOID"; "COUNTYFP"] ["FIPS"; "COMP_RANK"]
            [ ([VStr "04001000100"; VStr "001"], None) ])
  ∧ (read_csv_str az_roi_file ≫= getitem "FIPS") = ok [VStr "04001000100"].
Proof. split_and!; vm_compute; reflexivity. Qed.

(** * The renderers *)


Lemma traverse_ok_all {A B} (f : A → result B) (xs : list A) :
  (∀ x, x ∈ xs → ∃ y, f x = ok y) →
  ∃ ys, traverse f xs = ok ys ∧ Forall2 (λ x y, f x = ok y) xs ys.
Proof.
  induction xs as [|x xs IH]; intros Hall; simpl.
  - exists []. by split; [|constructor].
  - destruct (Hall x) as [y Hy]; [apply list_elem_of_here|].
    destruct IH as (ys & Hys & HF).
    { intros x' Hx'. apply Hall. by apply list_elem_of_further. }
    exists (y :: ys). rewrite Hy, Hys. split; [done|]. by constructor.
Qed.

Lemma traverse_ok_inv {A B} (f : A → result B) (xs : list A) ys :
  traverse f xs = ok ys → Forall2 (λ x y, f x = ok y) xs ys.
Proof.
  revert ys. induction xs as [|x xs IH]; intros ys; simpl.
  - intros [= <-]. constructor.
  - destruct (f x) as [e|y] eqn:Hy; [done|].
    destruct (traverse f xs) as [e|ys'] eqn:Hys; [done|].
    intros [= <-]. constructor; [done|]. by apply IH.
Qed.

Lemma traverse_fmap {A B} (f : A → B) (xs : list A) :
  traverse (λ x, ok (f x)) xs = ok (f <$> xs).
Proof. induction xs as [|x xs IH]; simpl; [done|]. by rewrite IH. Qed.

Lemma opportunity_legend :
  Opportunity.legend_elements = ok opportunity_patches.
Proof. vm_compute. reflexivity. Qed.

Lemma racial_legend : RaceDemo.legend_elements = ok racial_patches.
Proof. vm_compute. reflexivity. Qed.

(** The opportunity renderer fails only when the frame has no COMP_RANK
    column. *)
Lemma create_opportunity_map_ok df city_name output_path ranks :
  merged_getitem "COMP_RANK" df = ok ranks →
  Opportunity.create_opportunity_map df city_name output_path
  = ok (Figure (Opportunity.fill_of <$> ranks) opportunity_patches
          "Opportunity Rankings"
          ("Opportunity Rankings by Census Tract - " +:+ city_name
           +:+ " (2020)")
          output_path).
Proof.
  intros Hr. unfold Opportunity.create_opportunity_map.
  rewrite Hr. reflexivity.
Qed.

(** The label [idxmax] returns is one of the labels of the row. *)
Lemma race_label_listed d c k v :
  first_max (race_values d) k c v →
  ∃ col, dict_get c RaceDemo.color_scheme = Some col.
Proof.
  intros (Hk & _ & _). unfold race_values, RaceDemo.race_cols in Hk.
  do 7 (destruct k as [|k]; [simpl in Hk; simplify_eq; by eexists|]).
  by simpl in Hk.
Qed.

(** Every category the extractor produces, and the one given to a tract
    without a demographic row, is a key of the racial colour scheme. *)
Lemma extracted_category_listed geo_df part1_df out o :
  RaceDemo.extract geo_df part1_df = ok out →
  (∀ d, o = Some d → d ∈ out) →
  listed (RaceDemo.merged_category o).
Proof.
  intros Hex Ho. destruct o as [d|]; [|by exists "Unknown", "#FFFFFF"].
  destruct (extract_derived _ _ _ _ Hex (Ho d eq_refl)) as [_ Hdom].
  unfold RaceDemo.merged_category. rewrite Hdom.
  destruct (idxmax_spec (race_values d)) as [[-> _]|(k & c & v & -> & Hfm)].
  - by exists "Unknown", "#FFFFFF".
  - destruct (race_label_listed _ _ _ _ Hfm) as [col Hcol].
    by exists c, col.
Qed.

Lemma listed_color_of c :
  listed c ↔ ∃ col, RaceDemo.color_of c = ok col.
Proof.
  unfold listed, RaceDemo.color_of, RaceDemo.lookup_str. split.
  - intros (s & col & -> & Hcol). rewrite Hcol. by exists col.
  - intros [col Hcol]. destruct c as [s| |]; [|done..].
    destruct (dict_get s RaceDemo.color_scheme) as [col'|] eqn:Hs; [|done].
    by exists s, col'.
Qed.

Lemma left_join_right_in {A B} (lkey : A → cell) (rkey : B → cell) L R p r :
  p ∈ left_join lkey rkey L R → p.2 = Some r → r ∈ R.
Proof.
  unfold left_join. rewrite list_elem_of_In, in_flat_map.
  intros (l & _ & Hp) Hr. apply list_elem_of_In in Hp.
  unfold join_row in Hp.
  destruct (matches rkey (lkey l) R) as [|r0 ms] eqn:Hm.
  - apply list_elem_of_singleton in Hp. by subst.
  - apply list_elem_of_fmap in Hp as (r' & -> & Hr'). simpl in Hr.
    simplify_eq. rewrite <- Hm in Hr'. unfold matches in Hr'.
    by apply list_elem_of_filter in Hr' as [_ ?].
Qed.

(** The racial renderer returns exactly when every category of the
    merged frame is a key of its colour scheme, and then the drawing has
    one fill per merged row and the fixed legend. *)
Lemma create_racial_map_ok gdf demographics output_path county_name i :
  column_index "GEOID" (columns gdf) = Some i →
  "dominant_race" ∉ columns gdf →
  (∀ p, p ∈ left_join (at_col i) RaceDemo.GEOID (rows gdf) demographics →
        listed (RaceDemo.merged_category p.2)) →
  ∃ r, RaceDemo.create_racial_map gdf demographics output_path county_name
       = ok r
    ∧ RaceDemo.merged_gdf r
      = (λ p : row * option RaceDemo.demographic,
           RaceDemo.MergedRow p.1 p.2 (RaceDemo.merged_category p.2))
        <$> left_join (at_col i) RaceDemo.GEOID (rows gdf) demographics
    ∧ legend (RaceDemo.drawn r) = racial_patches
    ∧ Forall2 (λ m col, RaceDemo.color_of (RaceDemo.category m) = ok col)
        (RaceDemo.merged_gdf r) (fills (RaceDemo.drawn r)).
Proof.
  intros Hi Hcol Hall. unfold RaceDemo.create_racial_map.
  rewrite Hi, decide_False by done.
  edestruct (traverse_ok_all
               (λ m, RaceDemo.color_of (RaceDemo.category m))) as (cols & -> & HF).
  { intros m (p & -> & Hp)%list_elem_of_fmap. simpl.
    apply listed_color_of, Hall, Hp. }
  simpl. eexists. split; [done|]. simpl.
  split; [done|]. split; [done|]. exact HF.
Qed.

Lemma create_racial_map_inv gdf demographics output_path county_name r :
  RaceDemo.create_racial_map gdf demographics output_path county_name = ok r →
  legend (RaceDemo.drawn r) = racial_patches
  ∧ ∀ m, m ∈ RaceDemo.merged_gdf r → listed (RaceDemo.category m).
Proof.
  unfold RaceDemo.create_racial_map.
  destruct (column_index "GEOID" (columns gdf)) as [i|]; [|done].
  case_decide; [done|].
  destruct (traverse _ _) as [e|cols] eqn:Htr; [done|]. simpl.
  intros [= <-]. simpl. split; [done|].
  intros m Hm. apply traverse_ok_inv in Htr.
  apply listed_color_of.
  apply list_elem_of_lookup in Hm as [k Hk].
  destruct (Forall2_lookup_l _ _ _ _ _ Htr Hk) as (col & _ & Hcol).
  by exists col.
Qed.



Lemma opportunity_key_patch z col :
  dict_get z Opportunity.color_scheme = Some col →
  ∃ lab, dict_get z Opportunity.legend_labels = Some lab
         ∧ Patch col lab ∈ opportunity_patches.
Proof.
  unfold dict_get, Opportunity.color_scheme, Opportunity.legend_labels.
  simpl. intros H. repeat case_decide; simplify_eq/=;
    eexists; (split; [reflexivity|]); set_solver.
Qed.

Lemma racial_key_patch s col :
  dict_get s RaceDemo.color_scheme = Some col →
  ∃ lab, dict_get s RaceDemo.legend_labels = Some lab
         ∧ Patch col lab ∈ racial_patches.
Proof.
  unfold dict_get, RaceDemo.color_scheme, RaceDemo.legend_labels.
  simpl. intros H. repeat case_decide; simplify_eq/=;
    eexists; (split; [reflexivity|]); set_solver.
Qed.




(** C7 (as stated): a rank present in the input but not listed in the
    colour scheme is drawn (in the default fill) and has no patch: the
    legend of the opportunity renderer holds the three listed ranks
    only. *)
Lemma opportunity_legend_misses_unlisted_rank : ¬ legend_covers_input.
Proof.
  intros Hcov.
  destruct (Hcov rank4_merged "Detroit" "output/detroit_opportunity.png"
              _ [VInt 4]
              (create_opportunity_map_ok rank4_merged "Detroit"
                 "output/detroit_opportunity.png" [VInt 4] eq_refl)
              eq_refl (VInt 4) (list_elem_of_here _ _))
    as (p & Hp & Hface).
  simpl in Hp. unfold opportunity_patches in Hp.
  vm_compute in Hface.
  apply elem_of_cons in Hp as [->|H1]; [discriminate Hface|].
  apply elem_of_cons in H1 as [->|H2]; [discriminate Hface|].
  apply elem_of_cons in H2 as [->|H3]; [discriminate Hface|].
  by apply elem_of_nil in H3.
Qed.

(** C7 (amended): the legend is built from the colour scheme, not from
    the input: one patch per key of the scheme, with the key's colour and
    label, whatever the frame holds.  So a category present in the input
    has its patch when it is a key of the scheme: in the opportunity map
    the ranks 1, 2 and 3; in the racial map every category of a frame it
    renders. *)
Theorem legend_lists_the_scheme :
  (∀ df city_name output_path fig,
     Opportunity.create_opportunity_map df city_name output_path = ok fig →
     legend fig = opportunity_patches)
  ∧ (∀ z col, dict_get z Opportunity.color_scheme = Some col →
       ∃ lab, dict_get z Opportunity.legend_labels = Some lab
              ∧ Patch col lab ∈ opportunity_patches)
  ∧ (∀ gdf demographics output_path county_name r,
       RaceDemo.create_racial_map gdf demographics output_path county_name
       = ok r →
       legend (RaceDemo.drawn r) = racial_patches
       ∧ ∀ m, m ∈ RaceDemo.merged_gdf r →
           ∃ s col lab, RaceDemo.category m = VStr s
             ∧ dict_get s RaceDemo.color_scheme = Some col
             ∧ dict_get s RaceDemo.legend_labels = Some lab
             ∧ Patch col lab ∈ legend (RaceDemo.drawn r)).
Proof.
  split_and!.
  - intros df city_name output_path fig.
    destruct (merged_getitem "COMP_RANK" df) as [e|ranks] eqn:Hr.
    + unfold Opportunity.create_opportunity_map. by rewrite Hr.
    + rewrite (create_opportunity_map_ok _ _ _ _ Hr). by intros [= <-].
  - exact opportunity_key_patch.
  - intros gdf demographics output_path county_name r Hrun.
    destruct (create_racial_map_inv _ _ _ _ _ Hrun) as [Hleg Hall].
    split; [done|]. intros m Hm.
    destruct (Hall m Hm) as (s & col & Hs & Hcol).
    destruct (racial_key_patch _ _ Hcol) as (lab & Hlab & Hpatch).
    exists s, col, lab. by rewrite Hleg.
Qed.

Lemma legend_lists_the_scheme_witness :
  (∃ fig, Opportunity.create_opportunity_map rank4_merged "Detroit"
            "output/detroit_opportunity.png" = ok fig
     ∧ legend fig = opportunity_patches)
  ∧ (dict_get 1 Opportunity.color_scheme = Some "#2ecc71"
     ∧ ∃ lab, dict_get 1 Opportunity.legend_labels = Some lab
              ∧ Patch "#2ecc71" lab ∈ opportunity_patches)
  ∧ (∃ r, RaceDemo.create_racial_map sample_tracts sample_demographics
            "output/wayne_map.png" "Wayne" = ok r
       ∧ legend (RaceDemo.drawn r) = racial_patches).
Proof.
  destruct legend_lists_the_scheme as (Hopp & Hkey & Hrace).
  split_and!.
  - pose proof (create_opportunity_map_ok rank4_merged "Detroit"
                  "output/detroit_opportunity.png" [VInt 4] eq_refl) as Hfig.
    eexists. split; [exact Hfig|exact (Hopp _ _ _ _ Hfig)].
  - reflexivity.
  - apply Hkey. reflexivity.
  - destruct (RaceDemo.create_racial_map sample_tracts sample_demographics
                "output/wayne_map.png" "Wayne") as [e|r] eqn:Hrun;
      [by vm_compute in Hrun|].
    exists r. split; [done|]. by apply Hrace in Hrun as [? _].
Defined.

(** * Further properties *)

(** ** Decimal text of integers *)

Lemma digit_pretty_N_char d :
  (d < 10)%N → digit (pretty_N_char d) = Some (Z.of_N d).
Proof.
  intros Hd.
  assert (d = 0 ∨ d = 1 ∨ d = 2 ∨ d = 3 ∨ d = 4 ∨ d = 5 ∨ d = 6 ∨ d = 7
          ∨ d = 8 ∨ d = 9)%N as Hcases by lia.
  repeat (destruct Hcases as [->|Hcases]; [reflexivity|]).
  by subst.
Qed.

Lemma pretty_N_char_nonzero d :
  (0 < d < 10)%N → pretty_N_char d ≠ "0"%char.
Proof.
  intros Hd.
  assert (d = 1 ∨ d = 2 ∨ d = 3 ∨ d = 4 ∨ d = 5 ∨ d = 6 ∨ d = 7
          ∨ d = 8 ∨ d = 9)%N as Hcases by lia.
  repeat (destruct Hcases as [->|Hcases]; [discriminate|]).
  subst. discriminate.
Qed.

(** Reading back the digits [pretty_N_go] puts in front of [s]. *)
Lemma parse_pretty_N_go x : ∀ s,
  (0 < x)%N →
  parse_digits 0 (pretty_N_go x s) = parse_digits (Z.of_N x) s.
Proof.
  induction (N.lt_wf_0 x) as [x _ IH]. intros s Hx.
  rewrite pretty_N_go_step by done.
  assert (Hmod : (x `mod` 10 < 10)%N) by (apply N.mod_lt; lia).
  assert (Hsplit : Z.of_N x
                   = 10 * Z.of_N (x `div` 10) + Z.of_N (x `mod` 10)).
  { rewrite (N.div_mod x 10) at 1 by lia. lia. }
  destruct (decide (x `div` 10 = 0)%N) as [Hz|Hnz].
  - rewrite Hz, pretty_N_go_0. simpl.
    rewrite (digit_pretty_N_char _ Hmod). rewrite Hsplit, Hz. done.
  - rewrite IH; [|apply N.div_lt; lia|lia]. simpl.
    rewrite (digit_pretty_N_char _ Hmod). by rewrite Hsplit.
Qed.

(** The text of a positive number starts with a digit other than 0. *)
Lemma pretty_N_go_head x : ∀ s,
  (0 < x)%N →
  ∃ a t d, pretty_N_go x s = String a t ∧ a ≠ "0"%char ∧ digit a = Some d.
Proof.
  induction (N.lt_wf_0 x) as [x _ IH]. intros s Hx.
  rewrite pretty_N_go_step by done.
  destruct (decide (x `div` 10 = 0)%N) as [Hz|Hnz].
  - rewrite Hz, pretty_N_go_0.
    assert (Hsmall : (x < 10)%N).
    { apply N.div_small_iff in Hz; lia. }
    rewrite N.mod_small by done.
    exists (pretty_N_char x), s, (Z.of_N x).
    split; [done|]. split; [apply pretty_N_char_nonzero; lia|].
    by apply digit_pretty_N_char.
  - apply IH; [apply N.div_lt; lia|by apply N.neq_0_lt_0].
Qed.

Lemma parse_int_digit_head a t d :
  digit a = Some d → parse_int (String a t) = parse_digits 0 (String a t).
Proof.
  intros Hd. destruct a as [[] [] [] [] [] [] [] []]; try done.
Qed.

Lemma pretty_positive_head (p : positive) :
  ∃ a t d, pretty (Z.pos p) = String a t ∧ a ≠ "0"%char ∧ digit a = Some d.
Proof.
  unfold pretty, pretty_Z, pretty, pretty_positive, pretty, pretty_N.
  rewrite decide_False by done. by apply pretty_N_go_head.
Qed.

Lemma parse_digits_pretty_positive (p : positive) :
  parse_digits 0 (pretty (Z.pos p)) = Some (Z.pos p).
Proof.
  unfold pretty, pretty_Z, pretty, pretty_positive, pretty, pretty_N.
  rewrite decide_False by done. by rewrite parse_pretty_N_go.
Qed.

(** [str] of an integer reads back as that integer. *)
Lemma parse_int_pretty (z : Z) : parse_int (pretty z) = Some z.
Proof.
  destruct z as [|p|p].
  - reflexivity.
  - destruct (pretty_positive_head p) as (a & t & d & Heq & _ & Hd).
    pose proof (parse_digits_pretty_positive p) as Hp.
    rewrite Heq in Hp |- *. by rewrite (parse_int_digit_head _ _ _ Hd).
  - destruct (pretty_positive_head p) as (a & t & d & Heq & _ & Hd).
    change (pretty (Z.neg p)) with ("-" +:+ pretty (Z.pos p)).
    pose proof (parse_digits_pretty_positive p) as Hp.
    rewrite Heq in Hp |- *. simpl in Hp |- *. by rewrite Hp.
Qed.

(** [str] of an integer never starts with a 0 followed by more text. *)
Lemma pretty_not_zero_led (z : Z) (t : string) :
  t ≠ "" → pretty z ≠ String "0" t.
Proof.
  intros Ht. destruct z as [|p|p].
  - intros [= <-]. done.
  - destruct (pretty_positive_head p) as (a & t' & d & -> & Ha & _).
    intros [= -> _]. done.
  - change (pretty (Z.neg p)) with ("-" +:+ pretty (Z.pos p)). discriminate.
Qed.

(** X3: [str] of an integer reads back as the same integer, so an
    identifier the ROI file holds in plain decimal (the text [str] gives
    for its value) is still that text after [read_csv] has made it an
    integer and the merge has made it text again. *)
Theorem identifier_text_round_trip (z : Z) :
  to_numeric (astype_str (VInt z)) = Some z
  ∧ astype_str (infer_cell true (pretty z)) = VStr (pretty z).
Proof.
  split.
  - simpl. apply parse_int_pretty.
  - unfold infer_cell. by rewrite parse_int_pretty.
Qed.

(** ** The left join *)

Lemma matches_in {B} (rkey : B → cell) k (R : list B) r :
  r ∈ matches rkey k R ↔ r ∈ R ∧ rkey r = k.
Proof. unfold matches. rewrite list_elem_of_filter. tauto. Qed.

Lemma left_join_elem {A B} (lkey : A → cell) (rkey : B → cell) L R p :
  p ∈ left_join lkey rkey L R ↔
  p.1 ∈ L ∧ match p.2 with
            | Some r => r ∈ R ∧ rkey r = lkey p.1
            | None => ∀ r, r ∈ R → rkey r ≠ lkey p.1
            end.
Proof.
  unfold left_join. rewrite list_elem_of_In, in_flat_map.
  setoid_rewrite <- list_elem_of_In. split.
  - intros (l & Hl & Hp). unfold join_row in Hp.
    destruct (matches rkey (lkey l) R) as [|r0 ms] eqn:Hm.
    + apply list_elem_of_singleton in Hp as ->. simpl. split; [done|].
      intros r Hr Hk.
      assert (r ∈ matches rkey (lkey l) R) as Hin by by apply matches_in.
      rewrite Hm in Hin. by apply elem_of_nil in Hin.
    + apply list_elem_of_fmap in Hp as (r & -> & Hr). simpl.
      split; [done|]. rewrite <- Hm in Hr. by apply matches_in in Hr.
  - destruct p as [l [r|]]; simpl.
    + intros (Hl & Hr & Hk). exists l. split; [done|]. unfold join_row.
      assert (r ∈ matches rkey (lkey l) R) as Hin by by apply matches_in.
      destruct (matches rkey (lkey l) R) as [|r0 ms];
        [by apply elem_of_nil in Hin|].
      apply list_elem_of_fmap. by exists r.
    + intros (Hl & Hnone). exists l. split; [done|]. unfold join_row.
      destruct (matches rkey (lkey l) R) as [|r0 ms] eqn:Hm;
        [apply list_elem_of_here|].
      assert (r0 ∈ matches rkey (lkey l) R) as Hin
        by (rewrite Hm; apply list_elem_of_here).
      apply matches_in in Hin as [Hr0 Hk]. by destruct (Hnone r0 Hr0).
Qed.

(** X4: what the join contains.  A pair is in the output exactly when its
    left row is a left row and its right row is a right row of the same
    key, or is absent and no right row has that key.  So no right row
    appears under a key it does not have, and a right row whose key no
    left row has appears nowhere. *)
Theorem left_join_contents {A B} (lkey : A → cell) (rkey : B → cell)
    (L : list A) (R : list B) (l : A) (o : option B) :
  (l, o) ∈ left_join lkey rkey L R ↔
  l ∈ L ∧ match o with
          | Some r => r ∈ R ∧ rkey r = lkey l
          | None => ∀ r, r ∈ R → rkey r ≠ lkey l
          end.
Proof. apply (left_join_elem lkey rkey L R (l, o)). Qed.

Lemma matches_unique {B} (rkey : B → cell) k (R : list B) :
  NoDup (rkey <$> R) → (length (matches rkey k R) ≤ 1)%nat.
Proof.
  unfold matches. induction R as [|r R IH]; simpl; [lia|].
  rewrite NoDup_cons. intros [Hr HR]. rewrite filter_cons.
  case_decide as Hk; [|by apply IH].
  assert (filter (λ r0, rkey r0 = k) R = []) as ->; [|simpl; lia].
  destruct (filter (λ r0, rkey r0 = k) R) as [|r' rs] eqn:Hf; [done|].
  assert (r' ∈ filter (λ r0, rkey r0 = k) R) as [Hk' Hr']%list_elem_of_filter
    by (rewrite Hf; apply list_elem_of_here).
  destruct Hr. apply list_elem_of_fmap. exists r'. split; [congruence|done].
Qed.

Lemma join_row_fst {A B} (rkey : B → cell) R k (l : A) :
  (join_row rkey R k l).*1 = replicate (1 `max` length (matches rkey k R)) l.
Proof.
  unfold join_row. destruct (matches rkey k R) as [|r ms]; [done|].
  simpl. f_equal. induction ms as [|r' ms IH]; simpl; [done|]. by f_equal.
Qed.

(** X5: the join never drops or reorders tracts, and repeats one only
    when the right-hand table repeats its key: the left rows of the
    output are the left rows, each repeated once per match (once when
    unmatched); when the right-hand keys are pairwise distinct the
    output has exactly the left rows, row for row. *)
Theorem left_join_row_count {A B} (lkey : A → cell) (rkey : B → cell)
    (L : list A) (R : list B) :
  (left_join lkey rkey L R).*1
  = flat_map (λ l, replicate (1 `max` length (matches rkey (lkey l) R)) l) L
  ∧ (length L ≤ length (left_join lkey rkey L R))%nat
  ∧ (NoDup (rkey <$> R) → (left_join lkey rkey L R).*1 = L).
Proof.
  split_and!.
  - unfold left_join. induction L as [|l L IH]; simpl; [done|].
    by rewrite fmap_app, join_row_fst, IH.
  - unfold left_join. induction L as [|l L IH]; simpl; [lia|].
    rewrite length_app, join_row_length. lia.
  - intros Hnd. unfold left_join.
    induction L as [|l L IH]; simpl; [done|].
    rewrite fmap_app, join_row_fst, IH.
    pose proof (matches_unique rkey (lkey l) R Hnd) as Hle.
    destruct (length (matches rkey (lkey l) R)) as [|[|n]]; [done|done|lia].
Qed.

Lemma left_join_row_count_witness :
  NoDup (at_col 0 <$> [[VStr "26163500100"; VInt 1]])
  ∧ (left_join (at_col 0) (at_col 0) sample_tract_rows
       [[VStr "26163500100"; VInt 1]]).*1
    = sample_tract_rows.
Proof.
  assert (Hnd : NoDup (at_col 0 <$> [[VStr "26163500100"; VInt 1]])).
  { simpl. apply NoDup_singleton. }
  split; [exact Hnd|].
  destruct (left_join_row_count (at_col 0) (at_col 0) sample_tract_rows
              [[VStr "26163500100"; VInt 1]]) as (_ & _ & Huniq).
  exact (Huniq Hnd).
Defined.

(** ** Tract download and key columns *)

Lemma map_column_text i df : text_column i (map_column astype_str i df).
Proof.
  unfold text_column, map_column. simpl.
  intros r c (r0 & -> & _)%list_elem_of_fmap Hc.
  assert (Hi : (i < length r0)%nat).
  { apply lookup_lt_Some in Hc. by rewrite length_insert in Hc. }
  rewrite list_lookup_insert_eq in Hc by done. injection Hc as <-.
  apply astype_str_is_str.
Qed.

Lemma map_column_text_id i df :
  text_column i df → map_column astype_str i df = df.
Proof.
  intros Htext. destruct df as [cols rs]. unfold map_column. simpl. f_equal.
  rewrite <- (list_fmap_id rs) at 2. apply list_fmap_ext.
  intros k r Hk. simpl. unfold at_col.
  destruct (r !! i) as [c|] eqn:Hc; simpl.
  - rewrite astype_str_text; [by apply list_insert_id|].
    eapply (Htext r c); [|done]. simpl. by eapply list_elem_of_lookup_2.
  - apply list_insert_ge. by apply lookup_ge_None.
Qed.

Lemma filter_eq_inv name v df df' :
  filter_eq name v df = ok df' →
  columns df' = columns df ∧ ∀ r, r ∈ rows df' → r ∈ rows df.
Proof.
  unfold filter_eq.
  destruct (column_index name (columns df)) as [i|]; [|done].
  intros [= <-]. simpl. split; [done|].
  by intros r [_ Hr]%list_elem_of_filter.
Qed.

Lemma get_tracts_inv tracts state gdf :
  Opportunity.get_tracts tracts state = ok gdf →
  ∃ df i, tracts state 2020 = ok df
    ∧ column_index "GEOID" (columns df) = Some i
    ∧ gdf = map_column astype_str i df.
Proof.
  unfold Opportunity.get_tracts, getitem.
  destruct (tracts state 2020) as [e|df]; [done|]. simpl.
  destruct (column_index "GEOID" (columns df)) as [i|] eqn:Hi; [|done].
  simpl. intros [= <-]. exists df, i.
  by rewrite (setitem_existing _ _ _ _ Hi).
Qed.

(** X6: [get_tracts] asks the provider for the 2020 tracts of the state
    and passes its failure on; a frame without a GEOID column is a
    KeyError; otherwise it returns the provider's frame with the GEOID
    column converted to text and nothing else changed. *)
Theorem get_tracts_outcome (tracts : string → Z → result frame)
    (state : string) :
  (∀ e, tracts state 2020 = raise e →
        Opportunity.get_tracts tracts state = raise e)
  ∧ (∀ df, tracts state 2020 = ok df →
           column_index "GEOID" (columns df) = None →
           Opportunity.get_tracts tracts state = raise (KeyError "GEOID"))
  ∧ (∀ df i, tracts state 2020 = ok df →
             column_index "GEOID" (columns df) = Some i →
             ∃ gdf, Opportunity.get_tracts tracts state = ok gdf
               ∧ only_column_changed astype_str i df gdf
               ∧ text_column i gdf).
Proof.
  unfold Opportunity.get_tracts, getitem. split_and!.
  - by intros e ->.
  - intros df -> Hi. simpl. by rewrite Hi.
  - intros df i -> Hi. simpl. rewrite Hi. simpl.
    rewrite (setitem_existing _ _ _ _ Hi). eexists. split; [done|].
    split; [apply map_column_only_changed|apply map_column_text].
Qed.

Lemma get_tracts_outcome_witness :
  numeric_provider "26" 2020 = ok numeric_tracts
  ∧ column_index "GEOID" (columns numeric_tracts) = Some 0%nat
  ∧ Opportunity.get_tracts numeric_provider "26"
    = ok (Frame ["GEOID"; "COUNTYFP"]
            [ [VStr "26163500100"; VStr "163"];
              [VStr "26161400100"; VStr "161"] ])
  ∧ Opportunity.get_tracts numeric_provider "99"
    = raise (OtherError "no such state").
Proof.
  destruct (get_tracts_outcome numeric_provider "26") as (_ & _ & Hok).
  destruct (get_tracts_outcome numeric_provider "99") as (Herr & _ & _).
  split; [reflexivity|]. split; [reflexivity|]. split.
  - destruct (Hok numeric_tracts 0%nat eq_refl eq_refl) as (gdf & Hg & _).
    rewrite Hg. vm_compute in Hg. by injection Hg as <-.
  - apply Herr. reflexivity.
Defined.

(** X7: a tract frame that comes from [get_tracts], filtered to a county
    or not, already has a text GEOID column, so the merge rewrites only
    the ROI object: the caller's tract object is the same after the merge
    as before. *)
Theorem merge_keeps_downloaded_tracts (tracts : string → Z → result frame)
    (state county_fips : string) (σ : store) roi geo R G0 G i :
  Opportunity.get_tracts tracts state = ok G0 →
  filter_eq "COUNTYFP" county_fips G0 = ok G →
  roi ≠ geo → σ !! roi = Some R → σ !! geo = Some G →
  column_index "FIPS" (columns R) = Some i →
  ∃ m, Opportunity.merge_geo_roi roi geo σ
       = (ok m, <[roi := map_column astype_str i R]> σ).
Proof.
  intros (df & j & _ & Hj & ->)%get_tracts_inv Hfilter Hne HR HG Hi.
  apply filter_eq_inv in Hfilter as [Hcols Hrows].
  assert (HjG : column_index "GEOID" (columns G) = Some j)
    by by rewrite Hcols.
  assert (Htext : text_column j G).
  { intros r c Hr Hc. eapply (map_column_text j df); [|done]. by apply Hrows. }
  rewrite (merge_geo_roi_run _ _ _ _ _ _ _ Hne HR HG Hi HjG).
  rewrite (map_column_text_id j G Htext). eexists. f_equal.
  apply insert_id. by rewrite lookup_insert_ne.
Qed.

Lemma merge_keeps_downloaded_tracts_witness :
  Opportunity.get_tracts numeric_provider "26"
  = ok (map_column astype_str 0 numeric_tracts)
  ∧ ∃ G, filter_eq "COUNTYFP" "163" (map_column astype_str 0 numeric_tracts)
         = ok G
      ∧ ∃ m, Opportunity.merge_geo_roi 0%nat 1%nat
               {[ 0%nat := sample_roi; 1%nat := G ]}
             = (ok m, <[0%nat := map_column astype_str 0 sample_roi]>
                        {[ 0%nat := sample_roi; 1%nat := G ]}).
Proof.
  assert (Hget : Opportunity.get_tracts numeric_provider "26"
                 = ok (map_column astype_str 0 numeric_tracts))
    by (vm_compute; reflexivity).
  split; [exact Hget|].
  destruct (filter_eq "COUNTYFP" "163" (map_column astype_str 0 numeric_tracts))
    as [e|G] eqn:Hfilter; [by vm_compute in Hfilter|].
  exists G. split; [reflexivity|].
  apply (merge_keeps_downloaded_tracts numeric_provider "26" "163"
           {[ 0%nat := sample_roi; 1%nat := G ]} 0%nat 1%nat sample_roi
           (map_column astype_str 0 numeric_tracts) G 0%nat Hget Hfilter).
  - lia.
  - reflexivity.
  - reflexivity.
  - reflexivity.
Defined.

(** ** Failing merges *)

(** X8: merging an ROI object without a FIPS column raises KeyError
    'FIPS' before anything is written: the store is as it was. *)
Theorem merge_without_fips_changes_nothing (σ : store) roi geo R :
  σ !! roi = Some R → column_index "FIPS" (columns R) = None →
  Opportunity.merge_geo_roi roi geo σ = (raise (KeyError "FIPS"), σ).
Proof.
  intros HR Hi.
  unfold Opportunity.merge_geo_roi, assign_astype_str, bind_M, load, lift,
    getitem.
  rewrite HR. simpl. by rewrite Hi.
Qed.

Lemma merge_without_fips_changes_nothing_witness :
  nameless_store !! 0%nat
  = Some (Frame ["tract"; "COMP_RANK"] [ [VInt 26163500100; VInt 1] ])
  ∧ Opportunity.merge_geo_roi 0%nat 1%nat nameless_store
    = (raise (KeyError "FIPS"), nameless_store).
Proof.
  split; [reflexivity|].
  apply (merge_without_fips_changes_nothing nameless_store 0%nat 1%nat
           (Frame ["tract"; "COMP_RANK"] [ [VInt 26163500100; VInt 1] ]));
    reflexivity.
Defined.

(** X9: when the tract object has no GEOID column the merge raises
    KeyError 'GEOID', but only after the first assignment has run: the
    caller's ROI object is left with its FIPS column converted to text
    although no merge took place. *)
Theorem merge_without_geoid_still_rewrites_roi (σ : store) roi geo R G i :
  roi ≠ geo → σ !! roi = Some R → σ !! geo = Some G →
  column_index "FIPS" (columns R) = Some i →
  column_index "GEOID" (columns G) = None →
  Opportunity.merge_geo_roi roi geo σ
  = (raise (KeyError "GEOID"), <[roi := map_column astype_str i R]> σ).
Proof.
  intros Hne HR HG Hi Hj. unfold Opportunity.merge_geo_roi.
  unfold bind_M at 1. rewrite (assign_astype_str_run _ _ _ _ _ HR Hi).
  unfold bind_M at 1.
  unfold assign_astype_str, bind_M, load, lift, getitem.
  rewrite lookup_insert_ne by done. rewrite HG. simpl. by rewrite Hj.
Qed.

Lemma merge_without_geoid_still_rewrites_roi_witness :
  (0 ≠ 1)%nat
  ∧ keyless_store !! 0%nat = Some sample_roi
  ∧ column_index "FIPS" (columns sample_roi) = Some 0%nat
  ∧ Opportunity.merge_geo_roi 0%nat 1%nat keyless_store
    = (raise (KeyError "GEOID"),
       <[0%nat := map_column astype_str 0 sample_roi]> keyless_store).
Proof.
  split; [lia|]. split; [reflexivity|]. split; [reflexivity|].
  apply (merge_without_geoid_still_rewrites_roi keyless_store 0%nat 1%nat
           sample_roi (Frame ["tract"; "COUNTYFP"] sample_tract_rows) 0%nat);
    [lia|reflexivity..].
Defined.

(** ** Identifiers that start with 0 *)




(** X1: the text the merge gives an integer identifier never starts with
    a 0 followed by more digits: whatever zeros led the identifier in
    the file are gone. *)
Theorem integer_key_never_zero_led (z : Z) (t : string) :
  t ≠ "" → astype_str (VInt z) ≠ VStr (String "0" t).
Proof. intros Ht [= Heq]. by apply (pretty_not_zero_led z t). Qed.

Lemma integer_key_never_zero_led_witness :
  "4001" ≠ "" ∧ astype_str (VInt 4001) ≠ VStr "04001".
Proof.
  assert (Hne : "4001" ≠ "") by discriminate.
  split; [exact Hne|]. exact (integer_key_never_zero_led 4001 "4001" Hne).
Defined.



(** ** The opportunity renderer and script *)





Lemma read_csv_columns header lines :
  ∃ R, read_csv (header :: lines) = ok R ∧ columns R = header.
Proof. by eexists. Qed.



(** One Wayne tract listed with rank 1, one not listed. *)
Example detroit_fills :
  ∃ fig, Opportunity.script mi_provider detroit_files = ok fig
    ∧ fills fig = ["#2ecc71"; "#FFFFFF"].
Proof. eexists. split; vm_compute; reflexivity. Qed.

(** ** The PL reader and the extractor *)

Lemma try_encodings_outcome
    (read_csv_as : string → string → result frame) (file_path : string)
    (encs : list string) :
  RaceDemo.try_encodings read_csv_as file_path encs ≠ raise UnicodeDecodeError
  ∧ ((∃ encoding, encoding ∈ encs
        ∧ read_csv_as file_path encoding ≠ raise UnicodeDecodeError
        ∧ RaceDemo.try_encodings read_csv_as file_path encs
          = read_csv_as file_path encoding)
     ∨ ((∀ encoding, encoding ∈ encs →
           read_csv_as file_path encoding = raise UnicodeDecodeError)
        ∧ ∃ msg, RaceDemo.try_encodings read_csv_as file_path encs
                 = raise (ValueError msg))).
Proof.
  induction encs as [|enc rest IH]; simpl.
  - split; [done|]. right. split; [|by eexists].
    by intros encoding ?%elem_of_nil.
  - destruct (read_csv_as file_path enc) as [[]|df] eqn:Hr;
      try (split; [done|]; left; exists enc;
           split; [apply list_elem_of_here|]; rewrite Hr; by split).
    destruct IH as [Hnot [(enc' & Hin & Hn & Heq)|(Hall & msg & Hmsg)]].
    + split; [done|]. left. exists enc'.
      split; [by apply list_elem_of_further|done].
    + split; [done|]. right. split; [|by exists msg].
      intros encoding [->|Hin]%elem_of_cons; [done|by apply Hall].
Qed.

(** X13: the reader never lets a decode failure out.  Either some
    candidate encoding did not fail to decode, and the reader's outcome
    is the outcome of such an attempt (a frame, or whatever other error
    that attempt raised), or all three failed to decode and the outcome
    is a ValueError. *)
Theorem read_pl_file_outcome
    (read_csv_as : string → string → result frame) (file_path : string) :
  RaceDemo.read_pl_file read_csv_as file_path ≠ raise UnicodeDecodeError
  ∧ ((∃ encoding, encoding ∈ RaceDemo.encodings
        ∧ read_csv_as file_path encoding ≠ raise UnicodeDecodeError
        ∧ RaceDemo.read_pl_file read_csv_as file_path
          = read_csv_as file_path encoding)
     ∨ ((∀ encoding, encoding ∈ RaceDemo.encodings →
           read_csv_as file_path encoding = raise UnicodeDecodeError)
        ∧ ∃ msg, RaceDemo.read_pl_file read_csv_as file_path
                 = raise (ValueError msg))).
Proof. apply try_encodings_outcome. Qed.

(** X14: the extractor can fail in one way only: a file too narrow for
    the fixed positions.  It returns exactly when the Part 1 frame has at
    least 74 columns and the header frame at least 91, whatever the
    fields hold (text where a number is expected becomes a missing
    count); otherwise it raises IndexError. *)
Theorem extract_fails_only_on_width (geo_df part1_df : frame) :
  ((73 < length (columns part1_df))%nat ∧ (90 < length (columns geo_df))%nat
   ↔ ∃ out, RaceDemo.extract geo_df part1_df = ok out)
  ∧ (∀ e, RaceDemo.extract geo_df part1_df = raise e → e = IndexError).
Proof.
  split.
  - split.
    + intros [Hp Hg]. by apply extract_total.
    + intros [out Hout]. by apply extract_ok_inv in Hout as (? & ? & _).
  - intros e H. unfold RaceDemo.extract, iloc in H.
    repeat
      match type of H with
      | mbind _ (match decide ?P with left _ => _ | right _ => _ end) = _ =>
          destruct (decide P); [simpl in H|simpl in H; by injection H]
      end.
    discriminate H.
Qed.

Lemma extract_not_decode_error geo_df part1_df :
  RaceDemo.extract geo_df part1_df ≠ raise UnicodeDecodeError.
Proof.
  intros H. by apply extract_fails_only_on_width in H.
Qed.

(** X15: [read_pl_data] reads the header file first.  If that read
    fails, that failure is the outcome, whatever the Part 1 file holds;
    if only the Part 1 read fails, its failure is; with both read, the
    outcome is the extractor's.  A decode failure is never the
    outcome. *)
Theorem read_pl_data_outcome
    (read_csv_as : string → string → result frame)
    (geo_file_path part1_file_path : string) :
  (∀ e, RaceDemo.read_pl_file read_csv_as geo_file_path = raise e →
        RaceDemo.read_pl_data read_csv_as geo_file_path part1_file_path
        = raise e)
  ∧ (∀ geo_df e,
       RaceDemo.read_pl_file read_csv_as geo_file_path = ok geo_df →
       RaceDemo.read_pl_file read_csv_as part1_file_path = raise e →
       RaceDemo.read_pl_data read_csv_as geo_file_path part1_file_path
       = raise e)
  ∧ (∀ geo_df part1_df,
       RaceDemo.read_pl_file read_csv_as geo_file_path = ok geo_df →
       RaceDemo.read_pl_file read_csv_as part1_file_path = ok part1_df →
       RaceDemo.read_pl_data read_csv_as geo_file_path part1_file_path
       = RaceDemo.extract geo_df part1_df)
  ∧ RaceDemo.read_pl_data read_csv_as geo_file_path part1_file_path
    ≠ raise UnicodeDecodeError.
Proof.
  unfold RaceDemo.read_pl_data. split_and!.
  - by intros e ->.
  - by intros geo_df e -> ->.
  - by intros geo_df part1_df -> ->.
  - destruct (read_pl_file_outcome read_csv_as geo_file_path) as [Hg _].
    destruct (read_pl_file_outcome read_csv_as part1_file_path) as [Hp _].
    destruct (RaceDemo.read_pl_file read_csv_as geo_file_path)
      as [e|geo_df]; [simpl; unfold raise in *; congruence|].
    destruct (RaceDemo.read_pl_file read_csv_as part1_file_path)
      as [e|part1_df]; [simpl; unfold raise in *; congruence|].
    simpl. apply extract_not_decode_error.
Qed.

Lemma read_pl_data_outcome_witness :
  RaceDemo.read_pl_file sample_reader "none.pl"
  = raise (ValueError "Could not read file none.pl with any supported encoding")
  ∧ RaceDemo.read_pl_data sample_reader "none.pl" "part1.pl"
    = raise (ValueError
               "Could not read file none.pl with any supported encoding")
  ∧ RaceDemo.read_pl_file sample_reader "third.pl" = ok sample_geo
  ∧ RaceDemo.read_pl_file sample_reader "part1.pl" = ok sample_part1
  ∧ RaceDemo.read_pl_data sample_reader "third.pl" "part1.pl"
    = RaceDemo.extract sample_geo sample_part1.
Proof.
  destruct (read_pl_data_outcome sample_reader "none.pl" "part1.pl")
    as (Hfirst & _).
  destruct (read_pl_data_outcome sample_reader "third.pl" "part1.pl")
    as (_ & _ & Hboth & _).
  split; [reflexivity|]. split; [apply Hfirst; reflexivity|].
  split; [reflexivity|]. split; [reflexivity|].
  apply Hboth; reflexivity.
Defined.

(** ** Stripped text *)

Lemma append_nil_l (t : string) : "" +:+ t = t.
Proof. reflexivity. Qed.

Lemma append_cons (a : ascii) (s t : string) :
  String a s +:+ t = String a (s +:+ t).
Proof. reflexivity. Qed.

Lemma append_nil_r (s : string) : s +:+ "" = s.
Proof.
  induction s as [|a s IH]; [done|]. by rewrite append_cons, IH.
Qed.

Lemma append_assoc (s t u : string) : (s +:+ t) +:+ u = s +:+ (t +:+ u).
Proof.
  induction s as [|a s IH]; [done|]. by rewrite !append_cons, IH.
Qed.

Lemma rev_app_tail (s1 : string) : ∀ s2,
  String.rev_app s1 s2 = String.rev s1 +:+ s2.
Proof.
  unfold String.rev. induction s1 as [|a s1 IH]; intros s2; simpl; [done|].
  rewrite (IH (String a s2)), (IH (String a "")).
  by rewrite append_assoc, append_cons, append_nil_l.
Qed.

Lemma rev_app_append (s1 : string) : ∀ s2 s3,
  String.rev_app (s1 +:+ s2) s3 = String.rev_app s2 (String.rev_app s1 s3).
Proof.
  induction s1 as [|a s1 IH]; intros s2 s3; [done|].
  rewrite append_cons. simpl. apply IH.
Qed.

Lemma rev_append (s1 s2 : string) :
  String.rev (s1 +:+ s2) = String.rev s2 +:+ String.rev s1.
Proof.
  unfold String.rev at 1. rewrite rev_app_append.
  by rewrite rev_app_tail.
Qed.

Lemma rev_involutive (s : string) : String.rev (String.rev s) = s.
Proof.
  induction s as [|a s IH]; [done|].
  change (String.rev (String a s)) with (String.rev_app s (String a "")).
  rewrite rev_app_tail, rev_append, IH. done.
Qed.

Lemma lstrip_clean (s : string) : starts_clean (lstrip s).
Proof.
  induction s as [|a s IH]; simpl; [done|].
  destruct (isspace a) eqn:Ha; [done|]. simpl. done.
Qed.

Lemma lstrip_suffix (s : string) : ∃ w, s = w +:+ lstrip s.
Proof.
  induction s as [|a s [w IH]]; simpl; [by exists ""|].
  destruct (isspace a).
  - exists (String a w). by rewrite append_cons, <- IH.
  - by exists "".
Qed.

Lemma starts_clean_prefix (s t : string) :
  starts_clean (s +:+ t) → starts_clean s.
Proof. by destruct s. Qed.

(** [strip] leaves no whitespace at either end. *)
Lemma strip_clean (s : string) : starts_clean (strip s) ∧ ends_clean (strip s).
Proof.
  unfold strip, ends_clean. split.
  - destruct (lstrip_suffix (String.rev (lstrip s))) as [w Hw].
    apply (f_equal String.rev) in Hw.
    rewrite rev_involutive, rev_append in Hw.
    pose proof (lstrip_clean s) as Hclean. rewrite Hw in Hclean.
    by apply starts_clean_prefix in Hclean.
  - rewrite rev_involutive. apply lstrip_clean.
Qed.

Lemma starts_clean_lstrip (s : string) : starts_clean s → lstrip s = s.
Proof. destruct s as [|a s]; simpl; [done|]. by intros ->. Qed.

Lemma strip_idemp (s : string) : strip (strip s) = strip s.
Proof.
  destruct (strip_clean s) as [Hs He]. unfold ends_clean in He.
  unfold strip at 1. rewrite (starts_clean_lstrip _ Hs).
  rewrite (starts_clean_lstrip _ He). apply rev_involutive.
Qed.

(** X16: the county name of an extracted row that has a header row is
    always text, with no whitespace left at either end and such that
    stripping it again changes nothing; a county field that is missing
    in the file comes out as the text [nan], not as a missing value. *)
Theorem county_is_stripped_text (geo_df part1_df : frame)
    (out : list RaceDemo.demographic) (i : nat) (g : row)
    (d : RaceDemo.demographic) :
  RaceDemo.extract geo_df part1_df = ok out →
  rows geo_df !! i = Some g → out !! i = Some d →
  ∃ s, RaceDemo.County d = VStr s
    ∧ starts_clean s ∧ ends_clean s ∧ strip s = s
    ∧ (at_col 14 g = VNaN → s = "nan").
Proof.
  intros (_ & _ & ->)%extract_ok_inv Hg Hd.
  rewrite list_lookup_fmap in Hd.
  destruct (seq 0 (length (rows part1_df)) !! i) as [k|] eqn:Hk; [|done].
  apply lookup_seq in Hk as [-> _]. simpl in Hd. injection Hd as <-.
  unfold RaceDemo.build_row. simpl.
  unfold RaceDemo.aligned. rewrite !list_lookup_fmap, Hg. simpl.
  unfold astype_str_strip.
  destruct (astype_str (at_col 14 g)) as [s| |] eqn:Hs;
    [|by destruct (at_col 14 g)..].
  exists (strip s). split; [done|].
  destruct (strip_clean s) as [Hstart Hend].
  split; [done|]. split; [done|]. split; [apply strip_idemp|].
  intros Hnan. rewrite Hnan in Hs. by injection Hs as <-.
Qed.

Lemma county_is_stripped_text_witness :
  RaceDemo.extract blank_geo blank_part1 = ok blank_demographics
  ∧ rows blank_geo !! 0%nat
    = Some (replicate 9 (VStr "g") ++ [VStr "26163500100"]
            ++ replicate 4 (VStr "g") ++ [VNaN] ++ replicate 76 (VStr "g"))
  ∧ blank_demographics !! 0%nat = Some blank_first
  ∧ RaceDemo.County blank_first = VStr "nan".
Proof.
  assert (Hex : RaceDemo.extract blank_geo blank_part1 = ok blank_demographics)
    by (vm_compute; reflexivity).
  assert (Hd : blank_demographics !! 0%nat = Some blank_first)
    by (vm_compute; reflexivity).
  split; [exact Hex|]. split; [reflexivity|]. split; [exact Hd|].
  destruct (county_is_stripped_text blank_geo blank_part1 blank_demographics
              0%nat _ blank_first Hex eq_refl Hd)
    as (s & Hs & _ & _ & _ & Hnan).
  rewrite Hs. f_equal. apply Hnan. reflexivity.
Defined.

(** X17: a row whose Hispanic count is not numeric can be labelled
    neither white_nh nor hispanic: the derived non-Hispanic-white count
    is missing with it, and a missing count is never the maximum. *)
Theorem missing_hispanic_excludes_labels (geo_df part1_df : frame)
    (out : list RaceDemo.demographic) (d : RaceDemo.demographic) :
  RaceDemo.extract geo_df part1_df = ok out → d ∈ out →
  RaceDemo.hispanic d = None →
  RaceDemo.white_nh d = None
  ∧ RaceDemo.dominant_race d ≠ VStr "white_nh"
  ∧ RaceDemo.dominant_race d ≠ VStr "hispanic".
Proof.
  intros Hex Hd Hh. destruct (extract_derived _ _ _ _ Hex Hd) as [Hnh Hdom].
  assert (Hnone : RaceDemo.white_nh d = None).
  { rewrite Hnh, Hh. by destruct (RaceDemo.white_alone d). }
  split; [done|]. rewrite Hdom.
  destruct (idxmax_spec (race_values d)) as [[-> _]|(k & c & v & -> & Hk & _)];
    [done|].
  unfold race_values, RaceDemo.race_cols in Hk. rewrite Hnone, Hh in Hk.
  simpl. split; intros [= ->];
    do 7 (destruct k as [|k]; [simpl in Hk; by simplify_eq|]);
    by simpl in Hk.
Qed.

Lemma missing_hispanic_excludes_labels_witness :
  RaceDemo.extract blank_geo blank_part1 = ok blank_demographics
  ∧ blank_first ∈ blank_demographics
  ∧ RaceDemo.hispanic blank_first = None
  ∧ RaceDemo.white_alone blank_first = Some 80
  ∧ RaceDemo.dominant_race blank_first = VStr "black_alone"
  ∧ RaceDemo.white_nh blank_first = None
  ∧ RaceDemo.dominant_race blank_first ≠ VStr "white_nh"
  ∧ RaceDemo.dominant_race blank_first ≠ VStr "hispanic".
Proof.
  assert (Hex : RaceDemo.extract blank_geo blank_part1 = ok blank_demographics)
    by (vm_compute; reflexivity).
  assert (Hin : blank_first ∈ blank_demographics)
    by (vm_compute; apply list_elem_of_here).
  split; [exact Hex|]. split; [exact Hin|]. split; [reflexivity|].
  split; [reflexivity|]. split; [reflexivity|].
  apply (missing_hispanic_excludes_labels blank_geo blank_part1
           blank_demographics blank_first Hex Hin eq_refl).
Defined.

Lemma extract_fails_only_on_width_witness :
  ¬ (73 < length (columns narrow_part1))%nat
  ∧ RaceDemo.extract sample_geo narrow_part1 = raise IndexError.
Proof.
  split; [vm_compute; lia|].
  destruct (extract_fails_only_on_width sample_geo narrow_part1) as [_ Herr].
  destruct (RaceDemo.extract sample_geo narrow_part1) as [e|out] eqn:Hrun;
    [|by vm_compute in Hrun].
  f_equal. apply Herr. reflexivity.
Defined.

(** ** The racial renderer *)

(** What a returned call has computed. *)
Lemma create_racial_map_run gdf demographics output_path county_name r :
  RaceDemo.create_racial_map gdf demographics output_path county_name = ok r →
  ∃ i, column_index "GEOID" (columns gdf) = Some i
    ∧ RaceDemo.merged_gdf r
      = (λ p : row * option RaceDemo.demographic,
           RaceDemo.MergedRow p.1 p.2 (RaceDemo.merged_category p.2))
        <$> left_join (at_col i) RaceDemo.GEOID (rows gdf) demographics
    ∧ Forall2 (λ m col, RaceDemo.color_of (RaceDemo.category m) = ok col)
        (RaceDemo.merged_gdf r) (fills (RaceDemo.drawn r))
    ∧ saved_to (RaceDemo.drawn r) = output_path
    ∧ RaceDemo.unmatched_csv r
      = (if decide (0 < length (filter (λ m, RaceDemo.category m = VStr "Unknown")
                                  (RaceDemo.merged_gdf r)))%nat
         then Some ((λ m, (at_col i (RaceDemo.tract m), RaceDemo.category m))
                      <$> filter (λ m, RaceDemo.category m = VStr "Unknown")
                            (RaceDemo.merged_gdf r))
         else None).
Proof.
  unfold RaceDemo.create_racial_map.
  destruct (column_index "GEOID" (columns gdf)) as [i|]; [|done].
  case_decide; [done|].
  destruct (traverse _ _) as [e|cols] eqn:Htr; [done|]. simpl.
  intros [= <-]. simpl. exists i. split; [done|]. split; [done|].
  split; [by apply traverse_ok_inv|]. done.
Qed.

Lemma merged_row_category gdf demographics output_path county_name r m :
  RaceDemo.create_racial_map gdf demographics output_path county_name = ok r →
  m ∈ RaceDemo.merged_gdf r →
  RaceDemo.category m = RaceDemo.merged_category (RaceDemo.joined m).
Proof.
  intros (i & _ & Hrows & _)%create_racial_map_run Hm.
  rewrite Hrows in Hm. by apply list_elem_of_fmap in Hm as (p & -> & _).
Qed.

(** X18: a tract without a demographic row is given the category
    Unknown, is filled white, and is written to the side file with its
    GEOID. *)
Theorem unmatched_tract_white_and_listed (gdf : frame)
    (demographics : list RaceDemo.demographic)
    (output_path county_name : string) (r : RaceDemo.rendered)
    (k : nat) (m : RaceDemo.merged_row) :
  RaceDemo.create_racial_map gdf demographics output_path county_name = ok r →
  RaceDemo.merged_gdf r !! k = Some m →
  RaceDemo.joined m = None →
  RaceDemo.category m = VStr "Unknown"
  ∧ fills (RaceDemo.drawn r) !! k = Some "#FFFFFF"
  ∧ ∃ i lines, column_index "GEOID" (columns gdf) = Some i
      ∧ RaceDemo.unmatched_csv r = Some lines
      ∧ (at_col i (RaceDemo.tract m), VStr "Unknown") ∈ lines.
Proof.
  intros Hrun Hk Hnone.
  assert (Hm : m ∈ RaceDemo.merged_gdf r) by by eapply list_elem_of_lookup_2.
  assert (Hcat : RaceDemo.category m = VStr "Unknown").
  { rewrite (merged_row_category _ _ _ _ _ _ Hrun Hm), Hnone. done. }
  destruct (create_racial_map_run _ _ _ _ _ Hrun)
    as (i & Hi & _ & Hfills & _ & Hcsv).
  split; [done|]. split.
  - destruct (Forall2_lookup_l _ _ _ _ _ Hfills Hk) as (col & Hcol & Hc).
    rewrite Hcat in Hc. vm_compute in Hc. by injection Hc as <-.
  - exists i.
    assert (Hin : m ∈ filter (λ m, RaceDemo.category m = VStr "Unknown")
                        (RaceDemo.merged_gdf r))
      by by apply list_elem_of_filter.
    rewrite decide_True in Hcsv.
    + eexists. split; [done|]. split; [done|].
      apply list_elem_of_fmap. exists m. by rewrite Hcat.
    + destruct (filter _ _) as [|m' ms]; [by apply elem_of_nil in Hin|].
      simpl. lia.
Qed.

(** X19: the side file lists the tracts of category Unknown and only
    them, and is not written at all when there is none (a file from an
    earlier run then stays as it is).  Unknown is also the category of a
    tract whose demographic row has no label, so such matched tracts are
    written to the file of unmatched tracts as well. *)
Theorem side_file_lists_unknown (gdf : frame)
    (demographics : list RaceDemo.demographic)
    (output_path county_name : string) (r : RaceDemo.rendered) :
  RaceDemo.create_racial_map gdf demographics output_path county_name = ok r →
  (RaceDemo.unmatched_csv r = None
   ↔ ∀ m, m ∈ RaceDemo.merged_gdf r → RaceDemo.category m ≠ VStr "Unknown")
  ∧ (∀ lines line, RaceDemo.unmatched_csv r = Some lines →
       (line ∈ lines
        ↔ ∃ m i, m ∈ RaceDemo.merged_gdf r
            ∧ RaceDemo.category m = VStr "Unknown"
            ∧ column_index "GEOID" (columns gdf) = Some i
            ∧ line = (at_col i (RaceDemo.tract m), VStr "Unknown")))
  ∧ (∀ m d, m ∈ RaceDemo.merged_gdf r → RaceDemo.joined m = Some d →
       RaceDemo.dominant_race d = VNaN →
       RaceDemo.category m = VStr "Unknown").
Proof.
  intros Hrun.
  destruct (create_racial_map_run _ _ _ _ _ Hrun)
    as (i & Hi & _ & _ & _ & Hcsv).
  set (U := filter (λ m, RaceDemo.category m = VStr "Unknown")
              (RaceDemo.merged_gdf r)) in *.
  split_and!.
  - rewrite Hcsv. split.
    + case_decide as Hlen; [done|]. intros _ m Hm Hcat.
      assert (m ∈ U) as Hin by by apply list_elem_of_filter.
      destruct U; [by apply elem_of_nil in Hin|simpl in Hlen; lia].
    + intros Hall. rewrite decide_False; [done|].
      destruct U as [|m ms] eqn:HU; [simpl; lia|].
      assert (m ∈ U) as [Hcat Hm]%list_elem_of_filter
        by (rewrite HU; apply list_elem_of_here).
      by destruct (Hall m Hm).
  - intros lines line Hlines. rewrite Hcsv in Hlines.
    case_decide; [|done]. injection Hlines as <-.
    rewrite list_elem_of_fmap. split.
    + intros (m & -> & [Hcat Hm]%list_elem_of_filter).
      exists m, i. by rewrite Hcat.
    + intros (m & i' & Hm & Hcat & Hi' & ->).
      assert (i' = i) as -> by congruence.
      exists m. rewrite Hcat. split; [done|]. by apply list_elem_of_filter.
  - intros m d Hm Hd Hnan.
    rewrite (merged_row_category _ _ _ _ _ _ Hrun Hm), Hd.
    unfold RaceDemo.merged_category. by rewrite Hnan.
Qed.

(** X20: the racial renderer draws exactly one fill per row of the merged
    frame, and the merged frame never has fewer rows than the tract
    frame; when no GEOID occurs twice in the demographic frame, its rows
    are the tracts, row for row. *)
Theorem racial_map_fill_count (gdf : frame)
    (demographics : list RaceDemo.demographic)
    (output_path county_name : string) (r : RaceDemo.rendered) :
  RaceDemo.create_racial_map gdf demographics output_path county_name = ok r →
  length (fills (RaceDemo.drawn r)) = length (RaceDemo.merged_gdf r)
  ∧ (length (rows gdf) ≤ length (RaceDemo.merged_gdf r))%nat
  ∧ (NoDup (RaceDemo.GEOID <$> demographics) →
     RaceDemo.tract <$> RaceDemo.merged_gdf r = rows gdf).
Proof.
  intros (i & _ & Hrows & Hfills & _)%create_racial_map_run.
  split; [symmetry; by eapply Forall2_length|].
  rewrite Hrows, length_fmap.
  destruct (left_join_row_count (at_col i) RaceDemo.GEOID (rows gdf)
              demographics) as (_ & Hle & Huniq).
  split; [done|]. intros Hnd.
  rewrite <- (Huniq Hnd) at 2. rewrite <- list_fmap_compose.
  by apply list_fmap_ext.
Qed.

Lemma sample_wayne_ok :
  RaceDemo.create_racial_map sample_tracts sample_demographics
    "output/ouwayne_map.png" "Wayne" = ok sample_wayne.
Proof. vm_compute. reflexivity. Qed.

Lemma unmatched_tract_white_and_listed_witness :
  RaceDemo.create_racial_map sample_tracts sample_demographics
    "output/ouwayne_map.png" "Wayne" = ok sample_wayne
  ∧ (∃ m, RaceDemo.merged_gdf sample_wayne !! 1%nat = Some m
       ∧ RaceDemo.joined m = None
       ∧ RaceDemo.category m = VStr "Unknown"
       ∧ fills (RaceDemo.drawn sample_wayne) !! 1%nat = Some "#FFFFFF")
  ∧ RaceDemo.unmatched_csv sample_wayne
    = Some [(VStr "26163500200", VStr "Unknown")].
Proof.
  split; [exact sample_wayne_ok|]. split; [|vm_compute; reflexivity].
  destruct (RaceDemo.merged_gdf sample_wayne !! 1%nat) as [m|] eqn:Hk;
    [|by vm_compute in Hk].
  assert (Hnone : RaceDemo.joined m = None).
  { vm_compute in Hk. by injection Hk as <-. }
  exists m. split; [done|]. split; [exact Hnone|].
  destruct (unmatched_tract_white_and_listed sample_tracts sample_demographics
              "output/ouwayne_map.png" "Wayne" sample_wayne 1%nat m
              sample_wayne_ok Hk Hnone) as (Hcat & Hfill & _).
  by split.
Defined.

Lemma side_file_lists_unknown_witness :
  RaceDemo.create_racial_map sample_tracts sample_demographics
    "output/ouwayne_map.png" "Wayne" = ok sample_wayne
  ∧ RaceDemo.unmatched_csv sample_wayne
    = Some [(VStr "26163500200", VStr "Unknown")]
  ∧ ((VStr "26163500200", VStr "Unknown")
       ∈ [(VStr "26163500200", VStr "Unknown")]
     ↔ ∃ m i, m ∈ RaceDemo.merged_gdf sample_wayne
         ∧ RaceDemo.category m = VStr "Unknown"
         ∧ column_index "GEOID" (columns sample_tracts) = Some i
         ∧ (VStr "26163500200", VStr "Unknown")
           = (at_col i (RaceDemo.tract m), VStr "Unknown")).
Proof.
  assert (Hcsv : RaceDemo.unmatched_csv sample_wayne
                 = Some [(VStr "26163500200", VStr "Unknown")])
    by (vm_compute; reflexivity).
  split; [exact sample_wayne_ok|]. split; [exact Hcsv|].
  destruct (side_file_lists_unknown sample_tracts sample_demographics
              "output/ouwayne_map.png" "Wayne" sample_wayne sample_wayne_ok)
    as (_ & Hlines & _).
  apply (Hlines _ _ Hcsv).
Defined.

Lemma racial_map_fill_count_witness :
  RaceDemo.create_racial_map sample_tracts sample_demographics
    "output/ouwayne_map.png" "Wayne" = ok sample_wayne
  ∧ NoDup (RaceDemo.GEOID <$> sample_demographics)
  ∧ length (fills (RaceDemo.drawn sample_wayne)) = 2%nat
  ∧ RaceDemo.tract <$> RaceDemo.merged_gdf sample_wayne = rows sample_tracts.
Proof.
  assert (Hnd : NoDup (RaceDemo.GEOID <$> sample_demographics)).
  { vm_compute. apply NoDup_cons. split; [|apply NoDup_singleton].
    by intros ?%list_elem_of_singleton. }
  destruct (racial_map_fill_count sample_tracts sample_demographics
              "output/ouwayne_map.png" "Wayne" sample_wayne sample_wayne_ok)
    as (Hlen & _ & Huniq).
  split; [exact sample_wayne_ok|]. split; [exact Hnd|].
  split; [rewrite Hlen; vm_compute; reflexivity|exact (Huniq Hnd)].
Defined.

(** ** The race script *)

Lemma race_get_tracts_same tracts state :
  RaceDemo.get_tracts tracts state = Opportunity.get_tracts tracts state.
Proof. reflexivity. Qed.

Lemma prepare_inv tracts read_csv_as w dm t dt :
  RaceDemo.prepare tracts read_csv_as = ok (w, dm, t, dt) →
  ∃ tx mi, RaceDemo.get_tracts tracts "48" = ok tx
    ∧ RaceDemo.get_tracts tracts "26" = ok mi
    ∧ RaceDemo.read_pl_data read_csv_as
        "mi2020.pl/migeo2020.pl" "mi2020.pl/mi000012020.pl" = ok dm
    ∧ RaceDemo.read_pl_data read_csv_as
        "tx2020.pl/txgeo2020.pl" "tx2020.pl/tx000012020.pl" = ok dt
    ∧ filter_eq "COUNTYFP" "163" mi = ok w
    ∧ filter_eq "COUNTYFP" "453" tx = ok t.
Proof.
  unfold RaceDemo.prepare.
  destruct (RaceDemo.get_tracts tracts "48") as [e|tx] eqn:Htx; [done|].
  simpl.
  destruct (RaceDemo.get_tracts tracts "26") as [e|mi] eqn:Hmi; [done|].
  simpl.
  destruct (RaceDemo.read_pl_data read_csv_as "mi2020.pl/migeo2020.pl" _)
    as [e|dm'] eqn:Hdm; [done|]. simpl.
  destruct (RaceDemo.read_pl_data read_csv_as "tx2020.pl/txgeo2020.pl" _)
    as [e|dt'] eqn:Hdt; [done|]. simpl.
  destruct (filter_eq "COUNTYFP" "163" mi) as [e|w'] eqn:Hw; [done|]. simpl.
  destruct (filter_eq "COUNTYFP" "453" tx) as [e|t'] eqn:Ht; [done|]. simpl.
  intros [= <- <- <- <-]. by exists tx, mi.
Qed.

Lemma read_pl_data_extract read_csv_as geo_file_path part1_file_path out :
  RaceDemo.read_pl_data read_csv_as geo_file_path part1_file_path = ok out →
  ∃ geo_df part1_df, RaceDemo.extract geo_df part1_df = ok out.
Proof.
  unfold RaceDemo.read_pl_data.
  destruct (RaceDemo.read_pl_file read_csv_as geo_file_path)
    as [e|geo_df]; [done|]. simpl.
  destruct (RaceDemo.read_pl_file read_csv_as part1_file_path)
    as [e|part1_df]; [done|]. simpl.
  intros H. by exists geo_df, part1_df.
Qed.

(** A county frame cut from a download, merged with extractor output,
    renders. *)
Lemma county_map_renders tracts state county_fips G0 G geo_df part1_df dm
    output_path county_name :
  RaceDemo.get_tracts tracts state = ok G0 →
  filter_eq "COUNTYFP" county_fips G0 = ok G →
  "dominant_race" ∉ columns G →
  RaceDemo.extract geo_df part1_df = ok dm →
  ∃ r, RaceDemo.create_racial_map G dm output_path county_name = ok r.
Proof.
  rewrite race_get_tracts_same.
  intros (df & j & _ & Hj & ->)%get_tracts_inv Hfilter Hcol Hex.
  apply filter_eq_inv in Hfilter as [Hcols _].
  destruct (create_racial_map_ok G dm output_path county_name j)
    as (r & Hr & _); [by rewrite Hcols|done| |by exists r].
  intros p Hp. eapply extracted_category_listed; [exact Hex|].
  intros d Hd. by eapply left_join_right_in.
Qed.

(** X21: once the two downloads, the two extractions and the two county
    filters have succeeded, and the provider's frames carry no
    dominant_race column of their own, both maps render: the script runs
    to its end and leaves the two images on disk under their paths. *)
Theorem race_script_completes (tracts : string → Z → result frame)
    (read_csv_as : string → string → result frame)
    (fs : gmap string RaceDemo.artifact)
    (w : frame) (dm : list RaceDemo.demographic)
    (t : frame) (dt : list RaceDemo.demographic) :
  RaceDemo.prepare tracts read_csv_as = ok (w, dm, t, dt) →
  "dominant_race" ∉ columns w → "dominant_race" ∉ columns t →
  ∃ wayne travis,
    RaceDemo.create_racial_map w dm "output/ouwayne_map.png" "Wayne" = ok wayne
    ∧ RaceDemo.create_racial_map t dt "output/travis_map.png" "Travis"
      = ok travis
    ∧ RaceDemo.script tracts read_csv_as fs
      = (ok (), RaceDemo.outputs travis (RaceDemo.outputs wayne fs))
    ∧ (RaceDemo.script tracts read_csv_as fs).2 !! "output/ouwayne_map.png"
      = Some (RaceDemo.Image (RaceDemo.drawn wayne))
    ∧ (RaceDemo.script tracts read_csv_as fs).2 !! "output/travis_map.png"
      = Some (RaceDemo.Image (RaceDemo.drawn travis)).
Proof.
  intros Hprep Hw Ht.
  destruct (prepare_inv _ _ _ _ _ _ Hprep)
    as (tx & mi & Htx & Hmi & Hdm & Hdt & Hfw & Hft).
  destruct (read_pl_data_extract _ _ _ _ Hdm) as (g1 & p1 & Hex1).
  destruct (read_pl_data_extract _ _ _ _ Hdt) as (g2 & p2 & Hex2).
  destruct (county_map_renders _ _ _ _ _ _ _ _ "output/ouwayne_map.png"
              "Wayne" Hmi Hfw Hw Hex1) as [wayne Hwayne].
  destruct (county_map_renders _ _ _ _ _ _ _ _ "output/travis_map.png"
              "Travis" Htx Hft Ht Hex2) as [travis Htravis].
  exists wayne, travis. split; [done|]. split; [done|].
  assert (Hrun : RaceDemo.script tracts read_csv_as fs
                 = (ok (), RaceDemo.outputs travis (RaceDemo.outputs wayne fs))).
  { unfold RaceDemo.script. rewrite Hprep. simpl.
    rewrite Hwayne. simpl. by rewrite Htravis. }
  split; [done|]. rewrite Hrun. simpl.
  destruct (create_racial_map_run _ _ _ _ _ Hwayne) as (_ & _ & _ & _ & Hpw & _).
  destruct (create_racial_map_run _ _ _ _ _ Htravis) as (_ & _ & _ & _ & Hpt & _).
  unfold RaceDemo.outputs. rewrite Hpw, Hpt.
  split.
  - destruct (RaceDemo.unmatched_csv travis), (RaceDemo.unmatched_csv wayne);
      by simplify_map_eq.
  - destruct (RaceDemo.unmatched_csv travis), (RaceDemo.unmatched_csv wayne);
      by simplify_map_eq.
Qed.

(** X22: both maps write their unmatched tracts to the same file, so
    after the script the file holds the Travis list when Travis has an
    unmatched tract (the Wayne list written before it is gone), the Wayne
    list when only Wayne has one, and whatever was there before the
    script when neither has. *)
Theorem side_file_is_last_writer (tracts : string → Z → result frame)
    (read_csv_as : string → string → result frame)
    (fs : gmap string RaceDemo.artifact)
    (w : frame) (dm : list RaceDemo.demographic)
    (t : frame) (dt : list RaceDemo.demographic)
    (wayne travis : RaceDemo.rendered) :
  RaceDemo.prepare tracts read_csv_as = ok (w, dm, t, dt) →
  RaceDemo.create_racial_map w dm "output/ouwayne_map.png" "Wayne" = ok wayne →
  RaceDemo.create_racial_map t dt "output/travis_map.png" "Travis"
  = ok travis →
  (RaceDemo.script tracts read_csv_as fs).2 !! "unmatched_tracts.csv"
  = match RaceDemo.unmatched_csv travis, RaceDemo.unmatched_csv wayne with
    | Some lines, _ => Some (RaceDemo.Table lines)
    | None, Some lines => Some (RaceDemo.Table lines)
    | None, None => fs !! "unmatched_tracts.csv"
    end.
Proof.
  intros Hprep Hwayne Htravis.
  unfold RaceDemo.script. rewrite Hprep. simpl.
  rewrite Hwayne. simpl. rewrite Htravis. simpl.
  destruct (create_racial_map_run _ _ _ _ _ Hwayne) as (_ & _ & _ & _ & Hpw & _).
  destruct (create_racial_map_run _ _ _ _ _ Htravis) as (_ & _ & _ & _ & Hpt & _).
  unfold RaceDemo.outputs. rewrite Hpw, Hpt.
  destruct (RaceDemo.unmatched_csv travis), (RaceDemo.unmatched_csv wayne);
    by simplify_map_eq.
Qed.

Lemma race_prepared_ok :
  RaceDemo.prepare race_provider race_reader
  = ok (race_prepared.1.1.1, race_prepared.1.1.2, race_prepared.1.2,
        race_prepared.2).
Proof. vm_compute. reflexivity. Qed.

Lemma race_prepared_plain :
  ("dominant_race" ∉ columns race_prepared.1.1.1)
  ∧ ("dominant_race" ∉ columns race_prepared.1.2).
Proof.
  split; apply (proj1 (bool_decide_eq_false _)); vm_compute; reflexivity.
Qed.

Lemma race_script_completes_witness :
  RaceDemo.prepare race_provider race_reader
  = ok (race_prepared.1.1.1, race_prepared.1.1.2, race_prepared.1.2,
        race_prepared.2)
  ∧ ("dominant_race" ∉ columns race_prepared.1.1.1)
  ∧ ("dominant_race" ∉ columns race_prepared.1.2)
  ∧ (RaceDemo.script race_provider race_reader stale_disk).1 = ok ()
  ∧ is_Some ((RaceDemo.script race_provider race_reader stale_disk).2
               !! "output/ouwayne_map.png")
  ∧ is_Some ((RaceDemo.script race_provider race_reader stale_disk).2
               !! "output/travis_map.png").
Proof.
  destruct race_prepared_plain as [Hw Ht].
  split; [exact race_prepared_ok|]. split; [exact Hw|]. split; [exact Ht|].
  destruct (race_script_completes race_provider race_reader stale_disk
              _ _ _ _ race_prepared_ok Hw Ht)
    as (wayne & travis & _ & _ & Hrun & Hpw & Hpt).
  rewrite Hpw, Hpt, Hrun. by split.
Defined.

Lemma side_file_is_last_writer_witness :
  ∃ wayne travis,
    RaceDemo.create_racial_map race_prepared.1.1.1 race_prepared.1.1.2
      "output/ouwayne_map.png" "Wayne" = ok wayne
    ∧ RaceDemo.create_racial_map race_prepared.1.2 race_prepared.2
        "output/travis_map.png" "Travis" = ok travis
    ∧ RaceDemo.unmatched_csv wayne
      = Some [(VStr "26163500200", VStr "Unknown")]
    ∧ RaceDemo.unmatched_csv travis
      = Some [(VStr "48453000100", VStr "Unknown")]
    ∧ (RaceDemo.script race_provider race_reader stale_disk).2
        !! "unmatched_tracts.csv"
      = Some (RaceDemo.Table [(VStr "48453000100", VStr "Unknown")]).
Proof.
  destruct (RaceDemo.create_racial_map race_prepared.1.1.1 race_prepared.1.1.2
              "output/ouwayne_map.png" "Wayne") as [e|wayne] eqn:Hwayne;
    [by vm_compute in Hwayne|].
  destruct (RaceDemo.create_racial_map race_prepared.1.2 race_prepared.2
              "output/travis_map.png" "Travis") as [e|travis] eqn:Htravis;
    [by vm_compute in Htravis|].
  assert (Hcw : RaceDemo.unmatched_csv wayne
                = Some [(VStr "26163500200", VStr "Unknown")]).
  { vm_compute in Hwayne. by injection Hwayne as <-. }
  assert (Hct : RaceDemo.unmatched_csv travis
                = Some [(VStr "48453000100", VStr "Unknown")]).
  { vm_compute in Htravis. by injection Htravis as <-. }
  exists wayne, travis. split; [done|]. split; [done|].
  split; [exact Hcw|]. split; [exact Hct|].
  rewrite (side_file_is_last_writer race_provider race_reader stale_disk
             _ _ _ _ wayne travis race_prepared_ok Hwayne Htravis).
  by rewrite Hct.
Defined.
